(** * audio-transcriber-summarizer: the orchestration layer of [transcribe.ts]

    A shallow embedding of [src/transcribe.ts] and
    [src/local_types/gpt_models.ts], and the properties of the line wrapper,
    the chat model resolver, the segment scan, the cleanup and the input
    router.

    Strings.  A JavaScript string is a sequence of UTF-16 code units.  The
    embedding uses [string]; a character stands for the code unit of the same
    number, so the strings covered are those whose code units are below 256
    (ASCII and Latin-1).  The two line terminators U+2028 and U+2029 lie
    outside that range. *)

From Stdlib Require Import Ascii String DecimalString Decimal DecimalNat Arith Lia Sorted.
From stdpp Require Import gmap strings list fin_maps.

(** ** Results of calls that may throw *)

Inductive Exn : Type :=
| Error (message : string)   (* [throw Error(...)] in the program's own code *)
| TypeError                  (* raised by the engine: property read on [null] *)
| SyntaxError                (* raised by the [RegExp] constructor *)
| Rejection (message : string). (* a rejected promise of a backend call *)

Inductive Result (A : Type) : Type :=
| Ok (a : A)
| Throw (e : Exn).
Arguments Ok {A} a.
Arguments Throw {A} e.

(** ** The string primitives the program uses *)

Module Js.

Definition LF : ascii := "010"%char.
Definition CR : ascii := "013"%char.
Definition DQ : ascii := "034"%char.
Definition nl : string := String LF "".
Definition dq : string := String DQ "".

(** [LineTerminator] of the language, as far as code units below 256 go. *)
Definition isLineTerminator (c : ascii) : bool :=
  Ascii.eqb c LF || Ascii.eqb c CR.

(** [String.prototype.toLowerCase] on one code unit: A-Z, and the capital
    letters of Latin-1 (U+00C0-U+00DE without U+00D7), move up by 32. *)
Definition toLowerCaseUnit (c : ascii) : ascii :=
  let n := nat_of_ascii c in
  if (65 <=? n) && (n <=? 90) then ascii_of_nat (n + 32)
  else if (192 <=? n) && (n <=? 222) && negb (n =? 215) then ascii_of_nat (n + 32)
  else c.

Fixpoint toLowerCase (s : string) : string :=
  match s with
  | EmptyString => EmptyString
  | String c s' => String (toLowerCaseUnit c) (toLowerCase s')
  end.

Fixpoint drop (n : nat) (s : string) : string :=
  match n, s with
  | S n', String _ s' => drop n' s'
  | _, _ => s
  end.

Definition startsWith (s searchString : string) : bool :=
  String.prefix searchString s.

Definition endsWith (s searchString : string) : bool :=
  (String.length searchString <=? String.length s)
  && String.eqb (drop (String.length s - String.length searchString) s) searchString.

(** [s.replace(pattern, replacement)] with a string pattern: the first
    occurrence only. *)
Fixpoint replace (s pattern replacement : string) : string :=
  if String.prefix pattern s
  then replacement +:+ drop (String.length pattern) s
  else match s with
       | EmptyString => EmptyString
       | String c s' => String c (replace s' pattern replacement)
       end.

(** [String(i)] for a non-negative integer. *)
Definition ofNat (i : nat) : string :=
  NilEmpty.string_of_uint (Nat.to_uint i).

Fixpoint repeatUnit (c : ascii) (n : nat) : string :=
  match n with
  | 0 => EmptyString
  | S n' => String c (repeatUnit c n')
  end.

(** [s.padStart(targetLength, c)] for a pad string of one code unit. *)
Definition padStart (s : string) (targetLength : nat) (c : ascii) : string :=
  repeatUnit c (targetLength - String.length s) +:+ s.

(** [lines.join(separator)]. *)
Definition join (separator : string) (lines : list string) : string :=
  String.concat separator lines.

(** *** [inputString.match(new RegExp(`.{1,${n}}`, 'g'))]

    [dotUpTo n s] is the greedy match of at most [n] code units other than
    line terminators at the start of [s], with the rest of [s]. *)
Fixpoint dotUpTo (n : nat) (s : string) : string * string :=
  match n, s with
  | S n', String c s' =>
      if isLineTerminator c then (EmptyString, s)
      else let '(m, rest) := dotUpTo n' s' in (String c m, rest)
  | _, _ => (EmptyString, s)
  end.

(** One [exec] anchored at the start of [s]: the quantifier asks for one
    code unit at least. *)
Definition execDot (n : nat) (s : string) : option (string * string) :=
  match dotUpTo n s with
  | (EmptyString, _) => None
  | (m, rest) => Some (m, rest)
  end.

(** The global match: after a match the search resumes behind it, after a
    failure one code unit further.  Each round consumes a code unit, so
    [String.length s] rounds are enough. *)
Fixpoint matchAllFrom (rounds n : nat) (s : string) : list string :=
  match rounds with
  | 0 => []
  | S rounds' =>
      match s with
      | EmptyString => []
      | String _ s' =>
          match execDot n s with
          | Some (m, rest) => m :: matchAllFrom rounds' n rest
          | None => matchAllFrom rounds' n s'
          end
      end
  end.

(** [None] is [null]: a global match without any result. *)
Definition matchDot (n : nat) (s : string) : option (list string) :=
  match matchAllFrom (String.length s) n s with
  | [] => None
  | lines => Some lines
  end.

(** The code units of [s] that are not line terminators. *)
Fixpoint withoutLineTerminators (s : string) : string :=
  match s with
  | EmptyString => EmptyString
  | String c s' =>
      if isLineTerminator c then withoutLineTerminators s'
      else String c (withoutLineTerminators s')
  end.

End Js.

(** ** [src/local_types/gpt_models.ts] *)

Module GptModels.

Inductive ChatModel : Type := GPT3_5 | GPT4.

(** The values of the enum. *)
Definition value (m : ChatModel) : string :=
  match m with
  | GPT3_5 => "gpt-3.5-turbo"
  | GPT4 => "gpt-4"
  end.

Definition unsupported (chatModelStr : string) : Exn :=
  Error ("Unsupported GPT model " +:+ Js.dq +:+ chatModelStr +:+ Js.dq).

Definition getChatModelFromString (chatModelStr : string) : Result ChatModel :=
  let s := Js.toLowerCase chatModelStr in
  if String.eqb s "gpt3_5" then Ok GPT3_5
  else if String.eqb s "gpt4" then Ok GPT4
  else Throw (unsupported chatModelStr).

End GptModels.

(** ** [src/transcribe.ts] *)

Module Transcribe.
Import Js GptModels.

(** [console.log] and [console.error]. *)
Inductive LogLine : Type :=
| Log (text : string)
| LogError (text : string).

(** What an awaited backend call settles to. *)
Inductive Response : Type :=
| Resolved (text : string)
| Rejected (message : string).

(** The external collaborators.  [ffmpeg] is given the input's name and the
    working directory; it returns the directory it leaves behind and, on a
    non-zero exit, the message of the error [execSync] throws.
    [createTranscription] is given the number of requests sent before this
    one, the name of the file and its bytes if it can be read.
    [createChatCompletion] is given the model identifier and the content of
    the user message. *)
Record Backends : Type := {
  ffmpeg : string -> gmap string string -> gmap string string * option string;
  createTranscription : nat -> string -> option string -> Response;
  createChatCompletion : string -> string -> Response
}.

(** The parsed command line, as far as [transcribeLargeAudioFile] reads it. *)
Record Args : Type := {
  summarize : bool;
  gpt_model : string
}.

(** The state the program acts on: the files (name to content), the console,
    and the requests sent to the two backends, oldest first.  [writeError]
    is the answer of the file system to a write: for a path it refuses to
    create or truncate (a missing directory, a directory of that name, no
    permission) the message of the error it raises. *)
Record World : Type := {
  files : gmap string string;
  console : list LogLine;
  transcriptions : list string;
  completions : list (string * string);
  writeError : string -> option string
}.

Definition setFiles (fs : gmap string string) (w : World) : World :=
  {| files := fs; console := console w;
     transcriptions := transcriptions w; completions := completions w;
     writeError := writeError w |}.

Definition addLine (l : LogLine) (w : World) : World :=
  {| files := files w; console := console w ++ [l];
     transcriptions := transcriptions w; completions := completions w;
     writeError := writeError w |}.

Definition addTranscription (fileName : string) (w : World) : World :=
  {| files := files w; console := console w;
     transcriptions := transcriptions w ++ [fileName];
     completions := completions w; writeError := writeError w |}.

Definition addCompletion (model content : string) (w : World) : World :=
  {| files := files w; console := console w;
     transcriptions := transcriptions w;
     completions := completions w ++ [(model, content)];
     writeError := writeError w |}.

(** A computation ends by returning, by throwing, or is still running when
    the budget of loop rounds is used up. *)
Inductive Outcome (A : Type) : Type :=
| Returned (a : A) (w : World)
| Threw (e : Exn) (w : World)
| Running (w : World).
Arguments Returned {A} a w.
Arguments Threw {A} e w.
Arguments Running {A} w.

Definition world {A : Type} (o : Outcome A) : World :=
  match o with
  | Returned _ w | Threw _ w | Running w => w
  end.

Definition M (A : Type) : Type := World -> Outcome A.

Definition ret {A : Type} (a : A) : M A := fun w => Returned a w.

Definition bind {A B : Type} (m : M A) (k : A -> M B) : M B :=
  fun w =>
    match m w with
    | Returned a w' => k a w'
    | Threw e w' => Threw e w'
    | Running w' => Running w'
    end.

Definition lift {A : Type} (r : Result A) : M A :=
  fun w =>
    match r with
    | Ok a => Returned a w
    | Throw e => Threw e w
    end.

Declare Scope js_scope.
Delimit Scope js_scope with js.
Notation "x <- m ;; k" := (bind m (fun x => k))
  (at level 100, m at next level, right associativity) : js_scope.
Notation "m ;; k" := (bind m (fun _ => k))
  (at level 100, right associativity) : js_scope.
Local Open Scope js_scope.

Definition log (text : string) : M unit :=
  fun w => Returned tt (addLine (Log text) w).

Definition logError (text : string) : M unit :=
  fun w => Returned tt (addLine (LogError text) w).

Definition existsSync (path : string) : M bool :=
  fun w =>
    match files w !! path with
    | Some _ => Returned true w
    | None => Returned false w
    end.

Definition unlinkSync (path : string) : M unit :=
  fun w =>
    match files w !! path with
    | Some _ => Returned tt (setFiles (delete path (files w)) w)
    | None => Threw (Error "ENOENT: no such file or directory") w
    end.

Definition writeFileSync (path data : string) : M unit :=
  fun w =>
    match writeError w path with
    | None => Returned tt (setFiles (<[path := data]> (files w)) w)
    | Some message => Threw (Error message) w
    end.

(** `out${String(i).padStart(3, '0')}.mp3` *)
Definition chunkName (i : nat) : string :=
  "out" +:+ padStart (ofNat i) 3 "0"%char +:+ ".mp3".

(** The [RegExp] constructor rejects [.{1,0}]; [lines] is [null] when
    nothing matches, and [null.join] throws. *)
Definition splitStringIntoLines (inputString : string) (lineLength : nat)
  : Result string :=
  match lineLength with
  | 0 => Throw SyntaxError
  | _ =>
      match matchDot lineLength inputString with
      | None => Throw TypeError
      | Some lines => Ok (join nl lines)
      end
  end.

Section Program.
Variable backends : Backends.
Variable args : Args.

Definition splitAudioFile (audioFileName : string) : M unit :=
  fun w =>
    match ffmpeg backends audioFileName (files w) with
    | (fs, None) => Returned tt (setFiles fs w)
    | (fs, Some message) =>
        logError ("Error splitting audio: " +:+ message) (setFiles fs w)
    end.

Fixpoint cleanupLoop (rounds i : nat) (fileName : string) : M unit :=
  match rounds with
  | 0 => Running
  | S rounds' =>
      found <- existsSync fileName ;;
      if found : bool then
        unlinkSync fileName ;;
        cleanupLoop rounds' (S i) (chunkName (S i))
      else ret tt
  end.

(** Every round of the loop removes a file, so the loop ends within
    [size (files w)] rounds and one more test. *)
Definition cleanupAudioChunks : M unit :=
  fun w => cleanupLoop (S (size (files w))) 0 (chunkName 0) w.

Definition transcribeSmallAudioFile (audioFileName : string) : M (option string) :=
  fun w =>
    let w' := addTranscription audioFileName w in
    match createTranscription backends (List.length (transcriptions w))
            audioFileName (files w !! audioFileName) with
    | Resolved text => Returned (Some text) w'
    | Rejected message =>
        (logError ("Error transcribing: " +:+ message) ;; ret None) w'
    end.

(** The [while] loop of [transcribeLargeAudioFile], with its three
    variables. *)
Fixpoint transcribeLoop (rounds i : nat) (fileName aggregatedTranscription : string)
  : M string :=
  match rounds with
  | 0 => Running
  | S rounds' =>
      found <- existsSync fileName ;;
      if found : bool then
        log ("Processing file: " +:+ dq +:+ fileName +:+ dq) ;;
        transcription <- transcribeSmallAudioFile fileName ;;
        match transcription with
        | None =>
            logError ("Failed to transcribe " +:+ dq +:+ fileName +:+ dq) ;;
            transcribeLoop rounds' i fileName aggregatedTranscription
        | Some text =>
            let aggregatedTranscription' :=
              aggregatedTranscription +:+ text +:+ nl +:+ nl in
            log ("Transcription for " +:+ dq +:+ fileName +:+ dq +:+ " added") ;;
            transcribeLoop rounds' (S i) (chunkName (S i)) aggregatedTranscription'
        end
      else ret aggregatedTranscription
  end.

Definition transcriptFileName (audioFileName : string) : string :=
  replace audioFileName ".mp3" "" +:+ "_transcript.txt".

Definition summaryFileName (audioFileName : string) : string :=
  replace audioFileName ".mp3" "" +:+ "_summary.txt".

Definition prompt (aggregatedTranscription : string) : string :=
  "Please give me a summary of the following transcript. Be sure to outline any big ideas"
  +:+ nl +:+ "```" +:+ aggregatedTranscription +:+ "```".

Definition chatCompletion (model : ChatModel) (content : string) : M string :=
  fun w =>
    let w' := addCompletion (value model) content w in
    match createChatCompletion backends (value model) content with
    | Resolved text => Returned text w'
    | Rejected message => Threw (Rejection message) w'
    end.

(** Lines 112-133: the split and the scan of the chunks. *)
Definition transcribeChunks (rounds : nat) (audioFileName : string) : M string :=
  splitAudioFile audioFileName ;;
  log nl ;;
  transcribeLoop rounds 0 (chunkName 0) "".

(** Lines 135-172: cleanup, the transcript and the summary. *)
Definition saveTranscription (audioFileName aggregatedTranscription : string)
  : M unit :=
  cleanupAudioChunks ;;
  if String.eqb aggregatedTranscription "" then
    logError "No transcriptions were processed"
  else
    wrapped <- lift (splitStringIntoLines aggregatedTranscription 80) ;;
    writeFileSync (transcriptFileName audioFileName) wrapped ;;
    log (nl +:+ "All transcriptions aggregated and saved to "
         +:+ dq +:+ transcriptFileName audioFileName +:+ dq) ;;
    if summarize args then
      model <- lift (getChatModelFromString (gpt_model args)) ;;
      response <- chatCompletion model (prompt aggregatedTranscription) ;;
      wrapped' <- lift (splitStringIntoLines response 80) ;;
      writeFileSync (summaryFileName audioFileName) wrapped' ;;
      log (nl +:+ "Summary saved to " +:+ dq +:+ summaryFileName audioFileName +:+ dq)
    else ret tt.

Definition transcribeLargeAudioFile (rounds : nat) (audioFileName : string)
  : M unit :=
  aggregatedTranscription <- transcribeChunks rounds audioFileName ;;
  saveTranscription audioFileName aggregatedTranscription.

End Program.

(** The state in which the [while] loop of [transcribeLargeAudioFile]
    starts: the splitter has run and the empty line is logged. *)
Definition beforeLoop (backends : Backends) (audioFileName : string) (w : World)
  : World :=
  world ((splitAudioFile backends audioFileName ;; log nl) w).

(** The two calls the loop of [main] starts. *)
Inductive Call : Type :=
| DownloadAudioFromYouTube (youtubeLink : string)
| TranscribeLargeAudioFile (audioFileName : string).

(** The body of the [for] loop of [main]. *)
Definition route (fileNameOrUrl : string) : M (option Call) :=
  if startsWith fileNameOrUrl "https://www.youtube.com/" then
    ret (Some (DownloadAudioFromYouTube fileNameOrUrl))
  else if endsWith fileNameOrUrl ".mp3" then
    ret (Some (TranscribeLargeAudioFile fileNameOrUrl))
  else
    logError "Invalid input. Please provide a YouTube link or an mp3 file." ;;
    ret None.

End Transcribe.

(** ** Concrete runs used below *)

Module Scenarios.
Import Js Transcribe.

(** The splitter leaves two chunks in the working directory. *)
Definition twoChunks (audioFileName : string) (fs : gmap string string)
  : gmap string string * option string :=
  (<[chunkName 0 := "chunk 0"]> (<[chunkName 1 := "chunk 1"]> fs), None).

(** Chunk 000 is transcribed to "Hello world", every other request fails. *)
Definition secondFails : Backends :=
  {| ffmpeg := twoChunks;
     createTranscription := fun _ fileName _ =>
       if String.eqb fileName "out000.mp3" then Resolved "Hello world"
       else Rejected "Request failed with status code 500";
     createChatCompletion := fun _ _ => Resolved "A greeting." |}.

(** The request for chunk 000 fails, every other request succeeds. *)
Definition firstFails : Backends :=
  {| ffmpeg := twoChunks;
     createTranscription := fun _ fileName _ =>
       if String.eqb fileName "out000.mp3"
       then Rejected "Request failed with status code 500"
       else Resolved "Hello world";
     createChatCompletion := fun _ _ => Resolved "A greeting." |}.

(** Both chunks are transcribed. *)
Definition bothResolved : Backends :=
  {| ffmpeg := twoChunks;
     createTranscription := fun _ _ _ => Resolved "Hello world";
     createChatCompletion := fun _ _ => Resolved "A greeting." |}.

(** The splitter produces nothing. *)
Definition noChunks : Backends :=
  {| ffmpeg := fun _ fs => (fs, Some "Command failed: ffmpeg");
     createTranscription := fun _ _ _ => Resolved "Hello world";
     createChatCompletion := fun _ _ => Resolved "A greeting." |}.

Definition withSummary : Args := {| summarize := true; gpt_model := "gpt3_5" |}.
Definition withoutSummary : Args := {| summarize := false; gpt_model := "gpt3_5" |}.

Definition talkOnly : World :=
  {| files := {[ "talk.mp3" := "audio" ]}; console := [];
     transcriptions := []; completions := []; writeError := fun _ => None |}.

Definition emptyDir : World :=
  {| files := ∅; console := []; transcriptions := []; completions := [];
     writeError := fun _ => None |}.

End Scenarios.

(** ** The names [downloadAudioFromYouTube] derives from a video title *)

Module Download.
Import Js.

(** The character class of the regular expression: backslash, slash, colon,
    star, question mark, double quote, angle brackets, bar, ampersand,
    percent, dollar, at sign, braces and apostrophe. *)
Definition illegalCharacters : list ascii :=
  ["\"; "/"; ":"; "*"; "?"; DQ; "<"; ">"; "|"; "&"; "%"; "$"; "@"; "{"; "}"; "'"]%char.

Definition isIllegal (c : ascii) : bool :=
  existsb (Ascii.eqb c) illegalCharacters.

(** [directoryName.replace(/[...]/g, '')]: every match is replaced by the
    empty string. *)
Fixpoint removeIllegalCharactersForDirName (directoryName : string) : string :=
  match directoryName with
  | EmptyString => EmptyString
  | String c rest =>
      if isIllegal c then removeIllegalCharactersForDirName rest
      else String c (removeIllegalCharactersForDirName rest)
  end.

(** `processed/${removeIllegalCharactersForDirName(videoTitle)}` *)
Definition outputDirectory (videoTitle : string) : string :=
  "processed/" +:+ removeIllegalCharactersForDirName videoTitle.

(** `${outputDirectory}/audio.mp3` *)
Definition outputFileName (videoTitle : string) : string :=
  outputDirectory videoTitle +:+ "/audio.mp3".

End Download.

(** ** The first variant of the script ([src/unnamed/part_000], lines 64-219)

    Its [transcribeSmallAudioFile] returns [null] on an error, and its loop
    advances the index before it looks at the transcription. *)

Module Variant1.
Import Js Transcribe.
Local Open Scope js_scope.

(** What the loop holds in [transcription]. *)
Inductive Transcription : Type :=
| Text (text : string)
| Null
| Undefined.

(** [transcription + '\n\n'] converts the value to a string first. *)
Definition toString (t : Transcription) : string :=
  match t with
  | Text text => text
  | Null => "null"
  | Undefined => "undefined"
  end.

Section Program.
Variable backends : Backends.

Definition transcribeSmallAudioFile (audioFileName : string) : M Transcription :=
  fun w =>
    let w' := addTranscription audioFileName w in
    match createTranscription backends (List.length (transcriptions w))
            audioFileName (files w !! audioFileName) with
    | Resolved text => Returned (Text text) w'
    | Rejected message =>
        (logError ("Error transcribing: " +:+ message) ;; ret Null) w'
    end.

Fixpoint transcribeLoop (rounds i : nat) (fileName aggregatedTranscription : string)
  : M string :=
  match rounds with
  | 0 => Running
  | S rounds' =>
      found <- existsSync fileName ;;
      if found : bool then
        log ("Processing file: " +:+ fileName) ;;
        transcription <- transcribeSmallAudioFile fileName ;;
        let fileName' := chunkName (S i) in
        match transcription with
        | Undefined =>
            logError ("Failed to transcribe " +:+ fileName' +:+ ".") ;;
            transcribeLoop rounds' (S i) fileName' aggregatedTranscription
        | _ =>
            let aggregatedTranscription' :=
              aggregatedTranscription +:+ toString transcription +:+ nl +:+ nl in
            log ("Transcription for " +:+ fileName' +:+ " added.") ;;
            transcribeLoop rounds' (S i) fileName' aggregatedTranscription'
        end
      else ret aggregatedTranscription
  end.

End Program.

End Variant1.

(** ** More concrete runs *)

Module MoreScenarios.
Import Js Transcribe.

(** The splitter leaves one chunk. *)
Definition oneChunk (audioFileName : string) (fs : gmap string string)
  : gmap string string * option string :=
  (<[chunkName 0 := "chunk 0"]> fs, None).


(** The first two requests are rejected, the later ones resolved. *)
Definition flaky : Backends :=
  {| ffmpeg := oneChunk;
     createTranscription := fun n _ _ =>
       if n <? 2 then Rejected "Request failed with status code 429"
       else Resolved "Hello world";
     createChatCompletion := fun _ _ => Resolved "A greeting." |}.

(** The chat backend rejects the request. *)
Definition chatDown : Backends :=
  {| ffmpeg := oneChunk;
     createTranscription := fun _ _ _ => Resolved "Hello world";
     createChatCompletion := fun _ _ => Rejected "Request failed with status code 400" |}.


(** Two chunks, every request rejected. *)
Definition allRejected : Backends :=
  {| ffmpeg := Scenarios.twoChunks;
     createTranscription := fun _ _ _ => Rejected "Request failed with status code 500";
     createChatCompletion := fun _ _ => Resolved "A greeting." |}.


End MoreScenarios.

Import Js GptModels Transcribe.

#[local] Arguments String.append !s1 s2 : simpl nomatch.

(** * The chat model resolver *)

Section Resolver.

Lemma toLowerCaseUnit_idem (c : ascii) :
  toLowerCaseUnit (toLowerCaseUnit c) = toLowerCaseUnit c.
Proof. destruct c as [[] [] [] [] [] [] [] []]; reflexivity. Qed.

Lemma toLowerCase_idem (s : string) :
  toLowerCase (toLowerCase s) = toLowerCase s.
Proof.
  induction s as [|c s IH]; simpl; [reflexivity|].
  now rewrite toLowerCaseUnit_idem, IH.
Qed.

Lemma getChatModelFromString_cases (s : string) :
  (toLowerCase s = "gpt3_5" /\ getChatModelFromString s = Ok GPT3_5)
  \/ (toLowerCase s = "gpt4" /\ getChatModelFromString s = Ok GPT4)
  \/ (toLowerCase s <> "gpt3_5" /\ toLowerCase s <> "gpt4"
      /\ getChatModelFromString s = Throw (unsupported s)).
Proof.
  unfold getChatModelFromString; cbv zeta.
  destruct (String.eqb_spec (toLowerCase s) "gpt3_5") as [E1|N1]; [now left|].
  destruct (String.eqb_spec (toLowerCase s) "gpt4") as [E2|N2]; [now right; left|].
  now right; right.
Qed.

(** C3, as stated, fails: "GPT4" is neither of the two aliases, and the
    resolver returns GPT4 for it instead of raising. *)
Lemma resolver_accepts_other_spelling :
  "GPT4" <> "gpt3_5" /\ "GPT4" <> "gpt4"
  /\ getChatModelFromString "GPT4" = Ok GPT4.
Proof. split; [discriminate|split; [discriminate|reflexivity]]. Qed.

(** C3 (amended): the two aliases resolve to gpt-3.5-turbo and gpt-4; an
    input resolves to a model exactly when its lowercase form is that
    model's alias, and the resolver raises the unsupported-model error,
    quoting the input, exactly when the lowercase form of the input is
    neither alias.  No input yields a default. *)
Theorem resolver_by_lowercase_alias (s : string) :
  (getChatModelFromString "gpt3_5" = Ok GPT3_5 /\ value GPT3_5 = "gpt-3.5-turbo")
  /\ (getChatModelFromString "gpt4" = Ok GPT4 /\ value GPT4 = "gpt-4")
  /\ (getChatModelFromString s = Ok GPT3_5 <-> toLowerCase s = "gpt3_5")
  /\ (getChatModelFromString s = Ok GPT4 <-> toLowerCase s = "gpt4")
  /\ (getChatModelFromString s = Throw (unsupported s)
      <-> toLowerCase s <> "gpt3_5" /\ toLowerCase s <> "gpt4")
  /\ (forall e, getChatModelFromString s = Throw e -> e = unsupported s).
Proof.
  split; [split; reflexivity|]. split; [split; reflexivity|].
  destruct (getChatModelFromString_cases s)
    as [[L R]|[[L R]|(N1 & N2 & R)]]; rewrite R;
    repeat match goal with
           | |- _ /\ _ => split
           | |- _ <-> _ => split
           | |- forall _, _ => intro
           | H : _ /\ _ |- _ => destruct H
           end;
    try rewrite L in *; try congruence; try discriminate.
Qed.

(** C10, as stated, fails: the error raised for "GPT5" quotes "GPT5", the
    one raised for its lowercase form quotes "gpt5", so the two results are
    not the same. *)
Lemma resolver_error_quotes_the_input :
  getChatModelFromString "GPT5" = Throw (unsupported "GPT5")
  /\ getChatModelFromString (toLowerCase "GPT5") = Throw (unsupported "gpt5")
  /\ getChatModelFromString "GPT5" <> getChatModelFromString (toLowerCase "GPT5").
Proof. split; [reflexivity|split; [reflexivity|discriminate]]. Qed.

(** C10 (amended): "GPT4" and "gpt4" both resolve to GPT4; an input
    resolves to a model exactly when its lowercase form resolves to that
    model; it raises the unsupported-model error exactly when its lowercase
    form does, each error quoting the string that was passed; and there is
    no other result. *)
Theorem resolver_ignores_case (s : string) :
  (getChatModelFromString "GPT4" = Ok GPT4 /\ getChatModelFromString "gpt4" = Ok GPT4)
  /\ (forall m, getChatModelFromString s = Ok m
                <-> getChatModelFromString (toLowerCase s) = Ok m)
  /\ (getChatModelFromString s = Throw (unsupported s)
      <-> getChatModelFromString (toLowerCase s) = Throw (unsupported (toLowerCase s)))
  /\ ((exists m, getChatModelFromString s = Ok m)
      \/ getChatModelFromString s = Throw (unsupported s)).
Proof.
  split; [split; reflexivity|].
  destruct (getChatModelFromString_cases s)
    as [[L R]|[[L R]|(N1 & N2 & R)]];
    destruct (getChatModelFromString_cases (toLowerCase s))
      as [[L' R']|[[L' R']|(N1' & N2' & R')]];
    rewrite toLowerCase_idem in *; try congruence; rewrite R, R'.
  - split; [tauto|]. split; [split; discriminate|]. left. now exists GPT3_5.
  - split; [tauto|]. split; [split; discriminate|]. left. now exists GPT4.
  - split; [intros m; split; discriminate|]. split; [tauto|]. now right.
Qed.

Lemma resolver_ignores_case_witness :
  getChatModelFromString (toLowerCase "Gpt3_5") = Ok GPT3_5.
Proof.
  apply (resolver_ignores_case "Gpt3_5"). reflexivity.
Defined.

Example resolver_GPT4_as_gpt4 :
  getChatModelFromString "GPT4" = getChatModelFromString "gpt4".
Proof. reflexivity. Qed.

End Resolver.

(** * The line wrapper *)

Section LineWrapper.

Lemma append_empty_r (s : string) : s +:+ "" = s.
Proof. induction s as [|c s IH]; cbn; [reflexivity|now rewrite IH]. Qed.

Lemma append_length (s t : string) :
  String.length (s +:+ t) = String.length s + String.length t.
Proof. induction s as [|c s IH]; cbn; [reflexivity|now rewrite IH]. Qed.

Lemma withoutLineTerminators_append (s t : string) :
  withoutLineTerminators (s +:+ t)
  = withoutLineTerminators s +:+ withoutLineTerminators t.
Proof.
  induction s as [|c s IH]; cbn; [reflexivity|].
  destruct (isLineTerminator c); cbn; now rewrite IH.
Qed.

(** A string free of line terminators is left as it is. *)
Lemma withoutLineTerminators_id (s : string) :
  (forall c, String.get c s <> Some LF /\ String.get c s <> Some CR) ->
  withoutLineTerminators s = s.
Proof.
  induction s as [|c s IH]; intros H; cbn; [reflexivity|].
  assert (Hc : isLineTerminator c = false).
  { destruct (H 0) as [H1 H2]; cbn in H1, H2. unfold isLineTerminator.
    destruct (Ascii.eqb_spec c LF) as [->|_]; [now destruct H1|].
    destruct (Ascii.eqb_spec c CR) as [->|_]; [now destruct H2|].
    reflexivity. }
  rewrite Hc, IH; [reflexivity|].
  intros n. exact (H (S n)).
Qed.

(** The greedy match splits the string in two; the match holds no line
    terminator and at most [n] code units. *)
Lemma dotUpTo_split (n : nat) (s : string) :
  s = fst (dotUpTo n s) +:+ snd (dotUpTo n s)
  /\ withoutLineTerminators (fst (dotUpTo n s)) = fst (dotUpTo n s)
  /\ String.length (fst (dotUpTo n s)) <= n.
Proof.
  revert s; induction n as [|n IH]; intros s.
  - destruct s; cbn; repeat split; lia.
  - destruct s as [|c s]; [cbn; repeat split; lia|].
    cbn [dotUpTo]. destruct (isLineTerminator c) eqn:Hc.
    + cbn; repeat split; lia.
    + destruct (IH s) as (E & F & L).
      destruct (dotUpTo n s) as [m rest]; cbn in *.
      rewrite Hc, F. repeat split; [now rewrite <- E|lia].
Qed.

Lemma execDot_some (n : nat) (s m rest : string) :
  execDot n s = Some (m, rest) ->
  s = m +:+ rest /\ withoutLineTerminators m = m /\ m <> ""
  /\ 1 <= String.length m <= n.
Proof.
  unfold execDot. destruct (dotUpTo_split n s) as (E & F & L).
  destruct (dotUpTo n s) as [m' rest']; cbn in *.
  destruct m' as [|c m']; [discriminate|].
  intros [= <- <-]. repeat split; try assumption; try discriminate.
  cbn; lia.
Qed.

Lemma execDot_none (n : nat) (c : ascii) (s : string) :
  0 < n -> execDot n (String c s) = None -> isLineTerminator c = true.
Proof.
  intros Hn. destruct n as [|n]; [lia|].
  unfold execDot; cbn [dotUpTo].
  destruct (isLineTerminator c); [reflexivity|].
  destruct (dotUpTo n s); discriminate.
Qed.

Lemma concat_empty_cons (x : string) (xs : list string) :
  String.concat "" (x :: xs) = x +:+ String.concat "" xs.
Proof. destruct xs; cbn; [now rewrite append_empty_r|reflexivity]. Qed.

(** The matches, put end to end, are the input without its line
    terminators. *)
Lemma matchAllFrom_concat (n rounds : nat) (s : string) :
  0 < n -> String.length s <= rounds ->
  String.concat "" (matchAllFrom rounds n s) = withoutLineTerminators s.
Proof.
  intros Hn. revert s; induction rounds as [|rounds IH]; intros s Hlen.
  - destruct s; [reflexivity|cbn in Hlen; lia].
  - destruct s as [|c s]; [reflexivity|]. cbn [matchAllFrom].
    destruct (execDot n (String c s)) as [[m rest]|] eqn:Hx.
    + apply execDot_some in Hx as (E & F & _ & L).
      rewrite concat_empty_cons, IH.
      * now rewrite E, withoutLineTerminators_append, F.
      * apply (f_equal String.length) in E.
        rewrite append_length in E; cbn in E, Hlen; lia.
    + apply execDot_none in Hx; [|assumption].
      cbn [withoutLineTerminators]; rewrite Hx.
      apply IH; cbn in Hlen; lia.
Qed.

Lemma matchAllFrom_lines (n rounds : nat) (s line : string) :
  In line (matchAllFrom rounds n s) ->
  1 <= String.length line <= n /\ withoutLineTerminators line = line.
Proof.
  revert s; induction rounds as [|rounds IH]; intros s; [intros []|].
  destruct s as [|c s]; [intros []|]. cbn [matchAllFrom].
  destruct (execDot n (String c s)) as [[m rest]|] eqn:Hx.
  - intros [<-|Hin]; [|now apply (IH rest)].
    apply execDot_some in Hx as (_ & F & _ & L). now split.
  - apply IH.
Qed.

(** [match] yields [null] exactly on inputs made of line terminators
    only. *)
Lemma matchDot_none (n : nat) (s : string) :
  0 < n -> (matchDot n s = None <-> withoutLineTerminators s = "").
Proof.
  intros Hn. unfold matchDot.
  pose proof (matchAllFrom_concat n (String.length s) s Hn (le_n _)) as C.
  pose proof (matchAllFrom_lines n (String.length s) s) as L.
  destruct (matchAllFrom (String.length s) n s) as [|m ms].
  - split; [intros _; now rewrite <- C|reflexivity].
  - split; [discriminate|]. intros E. rewrite E, concat_empty_cons in C.
    destruct (L m (or_introl eq_refl)) as [[Hm _] _].
    destruct m; [cbn in Hm; lia|discriminate].
Qed.

(** The two lines the wrapper makes of "a" LF "b" at width 80 are "a" and
    "b", which give "ab". *)
Lemma wrapper_drops_line_feed :
  matchDot 80 ("a" +:+ nl +:+ "b") = Some ["a"; "b"]
  /\ splitStringIntoLines ("a" +:+ nl +:+ "b") 80 = Ok (join nl ["a"; "b"])
  /\ String.concat "" ["a"; "b"] <> "a" +:+ nl +:+ "b".
Proof. split; [reflexivity|split; [reflexivity|discriminate]]. Qed.

(** What the lines are: whenever the wrapper, at a positive width, returns,
    its result is the lines joined by line feeds; each line has between 1
    and W code units and no line terminator; and the lines put end to end
    are the input without its line terminators, hence the input itself
    when it has none. *)
Theorem wrapper_lines_rejoin (T : string) (W : nat) (out : string) :
  0 < W -> splitStringIntoLines T W = Ok out ->
  exists lines,
    matchDot W T = Some lines /\ out = join nl lines
    /\ (forall line, In line lines ->
          1 <= String.length line <= W /\ withoutLineTerminators line = line)
    /\ String.concat "" lines = withoutLineTerminators T
    /\ ((forall i, String.get i T <> Some LF /\ String.get i T <> Some CR) ->
        String.concat "" lines = T).
Proof.
  intros HW. unfold splitStringIntoLines.
  destruct W as [|W]; [lia|].
  destruct (matchDot (S W) T) as [lines|] eqn:Hm; [|discriminate].
  intros [= <-]. exists lines. split; [reflexivity|]. split; [reflexivity|].
  unfold matchDot in Hm.
  pose proof (matchAllFrom_concat (S W) (String.length T) T HW (le_n _)) as C.
  pose proof (matchAllFrom_lines (S W) (String.length T) T) as L.
  destruct (matchAllFrom (String.length T) (S W) T) as [|m ms] eqn:E;
    [discriminate|].
  injection Hm as <-.
  split; [exact L|]. split; [exact C|].
  intros Hfree. now rewrite C, withoutLineTerminators_id.
Qed.

Lemma wrapper_lines_rejoin_witness :
  exists lines,
    matchDot 3 "abcdefg" = Some lines /\ "abc" +:+ nl +:+ "def" +:+ nl +:+ "g" = join nl lines
    /\ (forall line, In line lines ->
          1 <= String.length line <= 3 /\ withoutLineTerminators line = line)
    /\ String.concat "" lines = withoutLineTerminators "abcdefg"
    /\ ((forall i, String.get i "abcdefg" <> Some LF
                   /\ String.get i "abcdefg" <> Some CR) ->
        String.concat "" lines = "abcdefg").
Proof.
  apply (wrapper_lines_rejoin "abcdefg" 3); [lia|reflexivity].
Defined.

(** C2, on the text the aggregator hands to the wrapper: two chunks
    transcribed to "Hello world" give that text twice, each time with the
    blank line of line 129 behind it.  At width 80 the wrapper makes the two
    lines "Hello world" of it; put end to end they are not the text, and the
    wrapper's output has lost both blank lines. *)
Theorem wrapper_loses_the_blank_lines :
  matchDot 80 ("Hello world" +:+ nl +:+ nl +:+ "Hello world" +:+ nl +:+ nl)
  = Some ["Hello world"; "Hello world"]
  /\ String.concat "" ["Hello world"; "Hello world"]
     <> "Hello world" +:+ nl +:+ nl +:+ "Hello world" +:+ nl +:+ nl
  /\ splitStringIntoLines
       ("Hello world" +:+ nl +:+ nl +:+ "Hello world" +:+ nl +:+ nl) 80
     = Ok ("Hello world" +:+ nl +:+ "Hello world").
Proof. split; [reflexivity|split; [discriminate|reflexivity]]. Qed.

(** C9, as stated, fails: the input made of one line feed is not empty,
    and the wrapper raises on it. *)
Lemma wrapper_throws_on_line_feed :
  nl <> "" /\ splitStringIntoLines nl 80 = Throw TypeError.
Proof. split; [discriminate|reflexivity]. Qed.

(** C9 (amended): on the empty string the wrapper raises for every width;
    at a positive width it raises (the match is [null]) exactly on the
    inputs that hold nothing but line terminators, and returns normally on
    every input with at least one other code unit. *)
Theorem wrapper_throws_iff_only_terminators (T : string) (W : nat) :
  (exists e, splitStringIntoLines "" W = Throw e)
  /\ (0 < W ->
      (splitStringIntoLines T W = Throw TypeError
       <-> withoutLineTerminators T = "")
      /\ (withoutLineTerminators T <> ""
          <-> exists out, splitStringIntoLines T W = Ok out)).
Proof.
  split.
  - destruct W; [now exists SyntaxError|now exists TypeError].
  - intros HW. pose proof (matchDot_none W T HW) as N.
    unfold splitStringIntoLines. destruct W as [|W]; [lia|].
    destruct (matchDot (S W) T) as [lines|].
    + split; split.
      * discriminate.
      * intros E. apply N in E. discriminate.
      * intros _. now exists (join nl lines).
      * intros _ E. apply N in E. discriminate.
    + split; split.
      * intros _. now apply N.
      * reflexivity.
      * intros H. now destruct H; apply N.
      * intros [out H]. discriminate.
Qed.

Lemma wrapper_throws_iff_only_terminators_witness :
  0 < 80
  /\ (exists e, splitStringIntoLines "" 80 = Throw e)
  /\ (splitStringIntoLines "Hello world" 80 = Throw TypeError
      <-> withoutLineTerminators "Hello world" = "")
  /\ (withoutLineTerminators "Hello world" <> ""
      <-> exists out, splitStringIntoLines "Hello world" 80 = Ok out).
Proof.
  destruct (wrapper_throws_iff_only_terminators "Hello world" 80) as [A B].
  split; [lia|]. split; [exact A|]. apply B. lia.
Defined.

End LineWrapper.

(** * Chunk names *)

Section ChunkNames.

Lemma append_inv_tail (a b c : string) :
  a +:+ c = b +:+ c -> a = b.
Proof.
  intros E.
  assert (L : String.length a = String.length b).
  { apply (f_equal String.length) in E. rewrite !append_length in E. lia. }
  revert b E L; induction a as [|x a IH]; intros [|y b] E L;
    try discriminate L; [reflexivity|].
  simpl in E, L. injection E as -> E. f_equal. apply IH; [exact E|lia].
Qed.

Lemma uint_of_padded (k : nat) (s : string) (d : uint) :
  NilEmpty.uint_of_string s = Some d ->
  exists d', NilEmpty.uint_of_string (repeatUnit "0" k +:+ s) = Some d'
             /\ Nat.of_uint d' = Nat.of_uint d.
Proof.
  intros H. induction k as [|k (d' & E & V)]; [now exists d|].
  exists (D0 d'). simpl. rewrite E. split; [reflexivity|exact V].
Qed.

Lemma padStart_ofNat_inj (i j : nat) :
  padStart (ofNat i) 3 "0" = padStart (ofNat j) 3 "0" -> i = j.
Proof.
  unfold padStart, ofNat. intros E.
  destruct (uint_of_padded (3 - String.length (NilEmpty.string_of_uint (Nat.to_uint i)))
              _ _ (NilEmpty.usu (Nat.to_uint i))) as (di & Ei & Vi).
  destruct (uint_of_padded (3 - String.length (NilEmpty.string_of_uint (Nat.to_uint j)))
              _ _ (NilEmpty.usu (Nat.to_uint j))) as (dj & Ej & Vj).
  rewrite E, Ej in Ei. injection Ei as <-.
  rewrite Vj, !Unsigned.of_to in Vi. now symmetry.
Qed.

(** Different indices give different file names. *)
Lemma chunkName_inj (i j : nat) : chunkName i = chunkName j -> i = j.
Proof.
  unfold chunkName. intros E. simpl in E. injection E as E.
  apply append_inv_tail in E. now apply padStart_ofNat_inj.
Qed.

Example chunkName_examples :
  chunkName 0 = "out000.mp3" /\ chunkName 12 = "out012.mp3"
  /\ chunkName 1000 = "out1000.mp3".
Proof. repeat split. Qed.

End ChunkNames.

(** * Cleanup *)

Section Cleanup.

Lemma bind_returned {A B : Type} (m : M A) (k : A -> M B) (w w' : World) (a : A) :
  m w = Returned a w' -> bind m k w = k a w'.
Proof. unfold bind. now intros ->. Qed.

Lemma setFiles_files (w : World) : setFiles (files w) w = w.
Proof. now destruct w. Qed.

(** From index [i] on the loop removes the chunks up to the first missing
    index [k] and nothing else, within [size (files w)] rounds and one
    test. *)
Lemma cleanupLoop_ends (n : nat) :
  forall (i : nat) (w : World),
    size (files w) <= n ->
    exists (k : nat) (fs : gmap string string),
      cleanupLoop (S n) i (chunkName i) w = Returned tt (setFiles fs w)
      /\ i <= k
      /\ (forall j, i <= j < k -> is_Some (files w !! chunkName j))
      /\ files w !! chunkName k = None
      /\ (forall j, i <= j < k -> fs !! chunkName j = None)
      /\ (forall name, (forall j, i <= j < k -> name <> chunkName j) ->
            fs !! name = files w !! name).
Proof.
  induction n as [|n IH]; intros i w Hsize;
    destruct (files w !! chunkName i) as [content|] eqn:Hl.
  - apply Nat.le_0_r, map_size_empty_inv in Hsize.
    rewrite Hsize, lookup_empty in Hl. discriminate.
  - exists i, (files w). cbn [cleanupLoop]. unfold bind, existsSync, ret.
    rewrite Hl, setFiles_files. repeat split; try lia; try assumption.
  - destruct (IH (S i) (setFiles (delete (chunkName i) (files w)) w))
      as (k & fs & Hrun & Hk & Hsome & Hnone & Hgone & Hframe).
    { cbn [files setFiles]. rewrite map_size_delete, Hl. lia. }
    cbn [files setFiles] in *.
    exists k, fs. split; [|split; [lia|split; [|split; [|split]]]].
    + change (cleanupLoop (S (S n)) i (chunkName i) w) with
        ((found <- existsSync (chunkName i) ;;
          if found : bool then
            unlinkSync (chunkName i) ;;
            cleanupLoop (S n) (S i) (chunkName (S i))
          else ret tt)%js w).
      unfold bind at 1, existsSync. rewrite Hl.
      unfold bind at 1, unlinkSync. rewrite Hl. exact Hrun.
    + intros j Hj. destruct (decide (j = i)) as [->|Hne]; [now rewrite Hl|].
      destruct (Hsome j ltac:(lia)) as [x Hx].
      apply lookup_delete_Some in Hx as [_ Hx]. now exists x.
    + rewrite lookup_delete_ne in Hnone; [exact Hnone|].
      intros E. apply chunkName_inj in E. lia.
    + intros j Hj. destruct (decide (j = i)) as [->|Hne]; [|apply Hgone; lia].
      rewrite Hframe; [apply lookup_delete_eq|].
      intros j' Hj' E. apply chunkName_inj in E. lia.
    + intros name Hname. rewrite Hframe.
      * apply lookup_delete_ne. intros E. now apply (Hname i ltac:(lia)).
      * intros j Hj. apply Hname. lia.
  - exists i, (files w). cbn [cleanupLoop]. unfold bind, existsSync, ret.
    rewrite Hl, setFiles_files. repeat split; try lia; try assumption.
Qed.

(** C5: on every working directory cleanup returns normally; with N the
    first missing chunk index, the chunks 0..N-1 are gone afterwards, every
    other file is as before, and nothing else changes.  The function takes
    no account of how the transcriptions went.  With no chunk 000 the
    directory is left as it is. *)
Theorem cleanup_removes_chunks_below_first_gap (w : World) :
  exists (N : nat) (fs : gmap string string),
    cleanupAudioChunks w = Returned tt (setFiles fs w)
    /\ (forall j, j < N -> is_Some (files w !! chunkName j))
    /\ files w !! chunkName N = None
    /\ (forall j, j < N -> fs !! chunkName j = None)
    /\ (forall name, (forall j, j < N -> name <> chunkName j) ->
          fs !! name = files w !! name)
    /\ (files w !! chunkName 0 = None -> cleanupAudioChunks w = Returned tt w).
Proof.
  destruct (cleanupLoop_ends (size (files w)) 0 w (le_n _))
    as (k & fs & Hrun & _ & Hsome & Hnone & Hgone & Hframe).
  exists k, fs. unfold cleanupAudioChunks.
  split; [exact Hrun|]. split; [intros j Hj; apply Hsome; lia|].
  split; [exact Hnone|]. split; [intros j Hj; apply Hgone; lia|].
  split; [intros name Hname; apply Hframe; intros j Hj; apply Hname; lia|].
  intros H0. cbn [cleanupLoop]. unfold bind, existsSync, ret. now rewrite H0.
Qed.

(** Cleanup only deletes. *)
Lemma cleanup_only_deletes (w : World) :
  exists fs : gmap string string,
    cleanupAudioChunks w = Returned tt (setFiles fs w) /\ fs ⊆ files w.
Proof.
  destruct (cleanupLoop_ends (size (files w)) 0 w (le_n _))
    as (k & fs & Hrun & _ & _ & _ & Hgone & Hframe).
  exists fs. split; [exact Hrun|].
  apply map_subseteq_spec. intros name x Hx.
  rewrite <- Hx. symmetry. apply Hframe.
  intros j Hj ->. rewrite Hgone in Hx by exact Hj. discriminate.
Qed.

End Cleanup.

(** * The scan of the chunks *)

Section Scan.
Variable backends : Backends.

(** One round of the loop on a chunk that is there and whose request is
    resolved: the text and a blank line are appended and the index
    advances. *)
Lemma transcribeLoop_resolved (rounds i : nat) (fileName agg text : string) (w : World) :
  is_Some (files w !! fileName) ->
  createTranscription backends (List.length (transcriptions w)) fileName
    (files w !! fileName) = Resolved text ->
  transcribeLoop backends (S rounds) i fileName agg w
  = transcribeLoop backends rounds (S i) (chunkName (S i))
      (agg +:+ text +:+ nl +:+ nl)
      (addLine (Log ("Transcription for " +:+ dq +:+ fileName +:+ dq +:+ " added"))
         (addTranscription fileName
            (addLine (Log ("Processing file: " +:+ dq +:+ fileName +:+ dq)) w))).
Proof.
  intros [content Hl] Hr. cbn [transcribeLoop].
  unfold bind at 1, existsSync. rewrite Hl.
  unfold bind at 1, log. unfold bind at 1, transcribeSmallAudioFile.
  cbn [files transcriptions addLine]. rewrite Hl in Hr |- *. rewrite Hr.
  reflexivity.
Qed.

(** One round on a chunk that is there and whose request is rejected: two
    errors are logged and the loop goes on with the same index, the same
    file name and the same text. *)
Lemma transcribeLoop_rejected (rounds i : nat) (fileName agg message : string) (w : World) :
  is_Some (files w !! fileName) ->
  createTranscription backends (List.length (transcriptions w)) fileName
    (files w !! fileName) = Rejected message ->
  transcribeLoop backends (S rounds) i fileName agg w
  = transcribeLoop backends rounds i fileName agg
      (addLine (LogError ("Failed to transcribe " +:+ dq +:+ fileName +:+ dq))
         (addLine (LogError ("Error transcribing: " +:+ message))
            (addTranscription fileName
               (addLine (Log ("Processing file: " +:+ dq +:+ fileName +:+ dq)) w)))).
Proof.
  intros [content Hl] Hr. cbn [transcribeLoop].
  unfold bind at 1, existsSync. rewrite Hl.
  unfold bind at 1, log. unfold bind at 1, transcribeSmallAudioFile.
  cbn [files transcriptions addLine]. rewrite Hl in Hr |- *. rewrite Hr.
  reflexivity.
Qed.

(** The loop ends at the first file name that is missing. *)
Lemma transcribeLoop_missing (rounds i : nat) (fileName agg : string) (w : World) :
  files w !! fileName = None ->
  transcribeLoop backends (S rounds) i fileName agg w = Returned agg w.
Proof.
  intros Hl. cbn [transcribeLoop]. unfold bind, existsSync, ret. now rewrite Hl.
Qed.

(** The loop touches neither the files nor the chat backend, throws
    nothing, only adds to the console and to the requests, and requests
    nothing but files that are there. *)
Lemma transcribeLoop_frame (rounds : nat) :
  forall (i : nat) (fileName agg : string) (w : World),
    let o := transcribeLoop backends rounds i fileName agg w in
    files (world o) = files w
    /\ completions (world o) = completions w
    /\ (forall e w', o <> Threw e w')
    /\ (exists lines, console (world o) = console w ++ lines)
    /\ (exists names, transcriptions (world o) = transcriptions w ++ names
                      /\ Forall (fun name => is_Some (files w !! name)) names).
Proof.
  induction rounds as [|rounds IH]; intros i fileName agg w o; subst o.
  - cbn. repeat split; try discriminate.
    + exists []. now rewrite app_nil_r.
    + exists []. now rewrite app_nil_r.
  - destruct (files w !! fileName) as [content|] eqn:Hl.
    + destruct (createTranscription backends (List.length (transcriptions w))
                  fileName (files w !! fileName)) as [text|message] eqn:Hr.
      * rewrite (transcribeLoop_resolved _ _ _ _ text);
          [|rewrite Hl; eauto|exact Hr].
        match goal with |- context [transcribeLoop _ _ ?i' ?f' ?a' ?w'] =>
          destruct (IH i' f' a' w') as (F & C & T & (ls & L) & (ns & N & A)) end.
        cbn [files completions console transcriptions addLine addTranscription] in *.
        repeat split; try assumption.
        -- exists (Log ("Processing file: " +:+ dq +:+ fileName +:+ dq)
                   :: Log ("Transcription for " +:+ dq +:+ fileName +:+ dq +:+ " added")
                   :: ls).
           rewrite L, <- !app_assoc. reflexivity.
        -- exists (fileName :: ns). rewrite N, <- app_assoc. split; [reflexivity|].
           constructor; [rewrite Hl; eauto|exact A].
      * rewrite (transcribeLoop_rejected _ _ _ _ message);
          [|rewrite Hl; eauto|exact Hr].
        match goal with |- context [transcribeLoop _ _ ?i' ?f' ?a' ?w'] =>
          destruct (IH i' f' a' w') as (F & C & T & (ls & L) & (ns & N & A)) end.
        cbn [files completions console transcriptions addLine addTranscription] in *.
        repeat split; try assumption.
        -- exists (Log ("Processing file: " +:+ dq +:+ fileName +:+ dq)
                   :: LogError ("Error transcribing: " +:+ message)
                   :: LogError ("Failed to transcribe " +:+ dq +:+ fileName +:+ dq)
                   :: ls).
           rewrite L, <- !app_assoc. reflexivity.
        -- exists (fileName :: ns). rewrite N, <- app_assoc. split; [reflexivity|].
           constructor; [rewrite Hl; eauto|exact A].
    + rewrite transcribeLoop_missing by exact Hl. cbn.
      repeat split; try discriminate.
      * exists []. now rewrite app_nil_r.
      * exists []. now rewrite app_nil_r.
Qed.

(** The defect of the loop: while the requests for the chunk at hand are
    rejected, the loop asks for the same chunk again and again and never
    gets past it. *)
Lemma transcribeLoop_stuck (fileName : string) :
  (forall n content, exists message,
      createTranscription backends n fileName content = Rejected message) ->
  forall (rounds i : nat) (agg : string) (w : World),
    is_Some (files w !! fileName) ->
    exists w',
      transcribeLoop backends rounds i fileName agg w = Running w'
      /\ files w' = files w
      /\ completions w' = completions w
      /\ transcriptions w' = transcriptions w ++ repeat fileName rounds
      /\ (0 < rounds ->
          In (LogError ("Failed to transcribe " +:+ dq +:+ fileName +:+ dq)) (console w')).
Proof.
  intros Hrej. induction rounds as [|rounds IH]; intros i agg w Hex.
  - exists w. cbn. rewrite app_nil_r. repeat split. lia.
  - destruct (Hrej (List.length (transcriptions w)) (files w !! fileName))
      as [message Hr].
    rewrite (transcribeLoop_rejected _ _ _ _ message) by assumption.
    match goal with |- context [transcribeLoop _ _ _ _ _ ?w1] =>
      destruct (IH i agg w1) as (w' & Hrun & F & C & T & L); [exact Hex|] end.
    exists w'. split; [exact Hrun|].
    cbn [files completions console transcriptions addLine addTranscription] in *.
    repeat split; try assumption.
    + rewrite T, <- app_assoc. reflexivity.
    + intros _. destruct rounds as [|rounds]; [|apply L; lia].
      cbn in Hrun. injection Hrun as <-. cbn. apply in_or_app. right. now left.
Qed.

(** When every request is resolved and the chunks 0..N-1 are there with
    none at N, the loop returns after N rounds and one test, having
    requested exactly those chunks, in the order of their indices. *)
Lemma transcribeLoop_all_resolved (N : nat) :
  (forall n name content, exists text,
      createTranscription backends n name content = Resolved text) ->
  forall (i : nat) (agg : string) (w : World),
    (forall j, i <= j < i + N -> is_Some (files w !! chunkName j)) ->
    files w !! chunkName (i + N) = None ->
    exists agg' w',
      transcribeLoop backends (S N) i (chunkName i) agg w = Returned agg' w'
      /\ transcriptions w' = transcriptions w ++ map chunkName (seq i N).
Proof.
  intros Hres. induction N as [|N IH]; intros i agg w Hsome Hnone.
  - rewrite Nat.add_0_r in Hnone. rewrite transcribeLoop_missing by exact Hnone.
    exists agg, w. split; [reflexivity|]. cbn. now rewrite app_nil_r.
  - destruct (Hres (List.length (transcriptions w)) (chunkName i)
                (files w !! chunkName i)) as [text Hr].
    rewrite (transcribeLoop_resolved _ _ _ _ text);
      [|apply Hsome; lia|exact Hr].
    match goal with |- context [transcribeLoop _ _ _ _ ?a1 ?w1] =>
      destruct (IH (S i) a1 w1) as (agg' & w' & Hrun & T) end.
    + intros j Hj. cbn [files addLine addTranscription]. apply Hsome. lia.
    + cbn [files addLine addTranscription].
      now replace (S i + N) with (i + S N) by lia.
    + exists agg', w'. split; [exact Hrun|].
      rewrite T. cbn [transcriptions addLine addTranscription map seq].
      now rewrite <- app_assoc.
Qed.

End Scan.

(** * The aggregator *)

Section Aggregator.
Variable backends : Backends.
Variable args : Args.

Lemma transcribeChunks_loop (rounds : nat) (audioFileName : string) (w : World) :
  transcribeChunks backends rounds audioFileName w
  = transcribeLoop backends rounds 0 (chunkName 0) ""
      (beforeLoop backends audioFileName w).
Proof.
  unfold transcribeChunks, beforeLoop, bind, splitAudioFile, log, logError.
  now destruct (ffmpeg backends audioFileName (files w)) as [fs [message|]].
Qed.

Lemma beforeLoop_frame (audioFileName : string) (w : World) :
  files (beforeLoop backends audioFileName w)
  = (ffmpeg backends audioFileName (files w)).1
  /\ completions (beforeLoop backends audioFileName w) = completions w
  /\ transcriptions (beforeLoop backends audioFileName w) = transcriptions w.
Proof.
  unfold beforeLoop, bind, splitAudioFile, log, logError.
  now destruct (ffmpeg backends audioFileName (files w)) as [fs [message|]].
Qed.

(** The split and the scan leave the directory as the splitter left it and
    send nothing to the chat backend. *)
Lemma transcribeChunks_frame (rounds : nat) (audioFileName : string) (w : World) :
  let o := transcribeChunks backends rounds audioFileName w in
  files (world o) = (ffmpeg backends audioFileName (files w)).1
  /\ completions (world o) = completions w
  /\ (forall e w', o <> Threw e w').
Proof.
  cbv zeta. rewrite transcribeChunks_loop.
  destruct (transcribeLoop_frame backends rounds 0 (chunkName 0) ""
              (beforeLoop backends audioFileName w)) as (F & C & T & _).
  destruct (beforeLoop_frame audioFileName w) as (F' & C' & _).
  rewrite F, C, F', C'. now repeat split.
Qed.

Lemma subseteq_lookup (fs fs' : gmap string string) (name : string) :
  fs ⊆ fs' -> fs !! name = None \/ fs !! name = fs' !! name.
Proof.
  intros Hsub. destruct (fs !! name) as [x|] eqn:Hx; [right|now left].
  symmetry. exact (lookup_weaken _ _ _ _ Hx Hsub).
Qed.

(** With an empty text nothing is written: the directory is what cleanup
    leaves, and the error is the last line of the console. *)
Lemma saveTranscription_empty (audioFileName : string) (w : World) :
  exists fs : gmap string string,
    saveTranscription backends args audioFileName "" w
    = Returned tt (addLine (LogError "No transcriptions were processed") (setFiles fs w))
    /\ fs ⊆ files w.
Proof.
  destruct (cleanup_only_deletes w) as (fs & Hrun & Hsub).
  exists fs. split; [|exact Hsub].
  unfold saveTranscription. now rewrite (bind_returned _ _ _ _ _ Hrun).
Qed.

(** Without the summary the chat backend is left alone, and the one file
    that may be written is the transcript. *)
Lemma saveTranscription_without_summary (audioFileName agg : string) (w : World) :
  summarize args = false ->
  let o := saveTranscription backends args audioFileName agg w in
  completions (world o) = completions w
  /\ (forall name, name <> transcriptFileName audioFileName ->
        files (world o) !! name = None
        \/ files (world o) !! name = files w !! name).
Proof.
  intros Hs. cbv zeta.
  destruct (cleanup_only_deletes w) as (fs & Hrun & Hsub).
  unfold saveTranscription. rewrite (bind_returned _ _ _ _ _ Hrun).
  destruct (String.eqb agg "").
  - unfold logError. cbn [world files completions setFiles addLine].
    split; [reflexivity|]. intros name _. apply subseteq_lookup, Hsub.
  - destruct (splitStringIntoLines agg 80) as [wrapped|e];
      unfold bind, lift, writeFileSync, log, ret; cbv beta iota.
    + destruct (writeError (setFiles fs w) (transcriptFileName audioFileName)).
      * cbn [world files completions setFiles addLine].
        split; [reflexivity|]. intros name _. apply subseteq_lookup, Hsub.
      * rewrite Hs. cbn [world files completions setFiles addLine].
        split; [reflexivity|]. intros name Hname.
        rewrite lookup_insert_ne by congruence. apply subseteq_lookup, Hsub.
    + cbn [world files completions setFiles addLine].
      split; [reflexivity|]. intros name _. apply subseteq_lookup, Hsub.
Qed.

Lemma append_inv_head (a b c : string) : a +:+ b = a +:+ c -> b = c.
Proof. induction a as [|x a IH]; simpl; [easy|]. intros [= E]. now apply IH. Qed.

Lemma summary_is_not_transcript (audioFileName : string) :
  summaryFileName audioFileName <> transcriptFileName audioFileName.
Proof.
  unfold summaryFileName, transcriptFileName. intros E.
  apply append_inv_head in E. discriminate.
Qed.

(** When the scan has ended with an empty text, the aggregator returns
    after logging the error, every file in the directory is one the
    splitter left there (nothing is written), and nothing was sent to the
    chat backend.  That is the case when the splitter left no chunk 000.
    When every transcription request is rejected, at every moment of the
    run the directory holds only what the splitter left, nothing was sent
    to the chat backend, and an error is on the console once the run has
    started. *)
Theorem empty_transcription_is_not_saved (audioFileName : string) (w : World) :
  (forall rounds w1,
      transcribeChunks backends rounds audioFileName w = Returned "" w1 ->
      exists fs : gmap string string,
        transcribeLargeAudioFile backends args rounds audioFileName w
        = Returned tt
            (addLine (LogError "No transcriptions were processed") (setFiles fs w1))
        /\ fs ⊆ (ffmpeg backends audioFileName (files w)).1
        /\ completions w1 = completions w)
  /\ ((ffmpeg backends audioFileName (files w)).1 !! chunkName 0 = None ->
      forall rounds, exists w1,
        transcribeChunks backends (S rounds) audioFileName w = Returned "" w1)
  /\ ((forall n name content, exists message,
         createTranscription backends n name content = Rejected message) ->
      forall rounds,
        let o := transcribeLargeAudioFile backends args rounds audioFileName w in
        files (world o) ⊆ (ffmpeg backends audioFileName (files w)).1
        /\ completions (world o) = completions w
        /\ (0 < rounds -> exists text, In (LogError text) (console (world o)))).
Proof.
  assert (A : forall rounds w1,
      transcribeChunks backends rounds audioFileName w = Returned "" w1 ->
      exists fs : gmap string string,
        transcribeLargeAudioFile backends args rounds audioFileName w
        = Returned tt
            (addLine (LogError "No transcriptions were processed") (setFiles fs w1))
        /\ fs ⊆ (ffmpeg backends audioFileName (files w)).1
        /\ completions w1 = completions w).
  { intros rounds w1 Hscan.
    destruct (transcribeChunks_frame rounds audioFileName w) as (F & C & _).
    rewrite Hscan in F, C. cbn [world] in F, C.
    destruct (saveTranscription_empty audioFileName w1) as (fs & Hsave & Hsub).
    exists fs. unfold transcribeLargeAudioFile, bind. rewrite Hscan, Hsave.
    split; [reflexivity|]. split; [now rewrite <- F|exact C]. }
  assert (B : (ffmpeg backends audioFileName (files w)).1 !! chunkName 0 = None ->
      forall rounds, exists w1,
        transcribeChunks backends (S rounds) audioFileName w = Returned "" w1).
  { intros H0 rounds. rewrite transcribeChunks_loop.
    rewrite transcribeLoop_missing; [eauto|].
    now destruct (beforeLoop_frame audioFileName w) as (-> & _). }
  split; [exact A|]. split; [exact B|].
  intros Hrej rounds. cbv zeta.
  destruct (beforeLoop_frame audioFileName w) as (F & C & _).
  destruct ((ffmpeg backends audioFileName (files w)).1 !! chunkName 0)
    as [content|] eqn:H0.
  - destruct (transcribeLoop_stuck backends (chunkName 0)
                (fun n content => Hrej n (chunkName 0) content)
                rounds 0 "" (beforeLoop backends audioFileName w))
      as (w' & Hrun & F' & C' & _ & L).
    { rewrite F, H0. eauto. }
    unfold transcribeLargeAudioFile, bind.
    rewrite transcribeChunks_loop, Hrun. cbn [world].
    rewrite F', C', F, C. split; [reflexivity|]. split; [reflexivity|].
    intros Hpos. eexists. exact (L Hpos).
  - destruct rounds as [|rounds].
    + unfold transcribeLargeAudioFile, bind.
      rewrite transcribeChunks_loop. cbn [transcribeLoop world].
      rewrite F, C. split; [reflexivity|]. split; [reflexivity|]. lia.
    + destruct (B eq_refl rounds) as [w1 Hscan].
      destruct (A (S rounds) w1 Hscan) as (fs & Hrun & Hsub & Hc).
      rewrite Hrun. cbn. split; [exact Hsub|]. split; [exact Hc|].
      intros _. eexists. apply in_or_app. right. now left.
Qed.

(** C8: with the summarize flag off, whatever the transcript and however
    the run goes, nothing is sent to the chat backend, and every file
    other than the transcript file, the summary file among them, is
    either absent or as the splitter left it. *)
Theorem no_summary_when_not_requested
    (rounds : nat) (audioFileName : string) (w : World) :
  summarize args = false ->
  let o := transcribeLargeAudioFile backends args rounds audioFileName w in
  completions (world o) = completions w
  /\ (forall name, name <> transcriptFileName audioFileName ->
        files (world o) !! name = None
        \/ files (world o) !! name
           = (ffmpeg backends audioFileName (files w)).1 !! name)
  /\ summaryFileName audioFileName <> transcriptFileName audioFileName.
Proof.
  intros Hs. cbv zeta.
  split; [|split; [|apply summary_is_not_transcript]];
    destruct (transcribeChunks_frame rounds audioFileName w) as (F & C & T);
    unfold transcribeLargeAudioFile, bind;
    destruct (transcribeChunks backends rounds audioFileName w)
      as [agg w1|e w1|w1]; cbn [world] in *.
  - destruct (saveTranscription_without_summary audioFileName agg w1 Hs) as [C1 _].
    now rewrite C1.
  - exact C.
  - exact C.
  - intros name Hname.
    destruct (saveTranscription_without_summary audioFileName agg w1 Hs) as [_ F1].
    rewrite <- F. now apply F1.
  - intros name _. right. now rewrite F.
  - intros name _. right. now rewrite F.
Qed.

End Aggregator.

(** * Runs in which a transcription request fails *)

Section FailedRequests.
Import Scenarios.

(** Whatever the backend answers, the requests of the scan are for chunks
    below the first gap, in an order in which the indices never go down. *)
Lemma transcribeLoop_below_gap (backends : Backends) (N rounds : nat) :
  forall (i : nat) (agg : string) (w : World),
    i <= N ->
    (forall j, i <= j < N -> is_Some (files w !! chunkName j)) ->
    files w !! chunkName N = None ->
    exists js,
      transcriptions (world (transcribeLoop backends rounds i (chunkName i) agg w))
      = transcriptions w ++ map chunkName js
      /\ Forall (fun j => i <= j < N) js
      /\ StronglySorted Nat.le js.
Proof.
  induction rounds as [|rounds IH]; intros i agg w Hi Hsome Hnone.
  - exists []. cbn. rewrite app_nil_r. repeat constructor.
  - destruct (decide (i = N)) as [->|Hne].
    + rewrite transcribeLoop_missing by exact Hnone.
      exists []. cbn. rewrite app_nil_r. repeat constructor.
    + assert (Hex : is_Some (files w !! chunkName i)) by (apply Hsome; lia).
      destruct (createTranscription backends (List.length (transcriptions w))
                  (chunkName i) (files w !! chunkName i)) as [text|message] eqn:Hr.
      * rewrite (transcribeLoop_resolved _ _ _ _ _ text) by assumption.
        match goal with |- context [transcribeLoop _ _ _ _ ?a1 ?w1] =>
          destruct (IH (S i) a1 w1) as (js & T & B & O) end;
          try (cbn [files addLine addTranscription]; first [lia|assumption]).
        { intros j Hj. cbn [files addLine addTranscription]. apply Hsome. lia. }
        exists (i :: js). rewrite T.
        cbn [transcriptions addLine addTranscription map].
        rewrite <- app_assoc. split; [reflexivity|]. split.
        -- constructor; [lia|]. eapply Forall_impl; [exact B|]. cbn. lia.
        -- constructor; [exact O|]. eapply Forall_impl; [exact B|]. cbn.
           unfold Nat.le. lia.
      * rewrite (transcribeLoop_rejected _ _ _ _ _ message) by assumption.
        match goal with |- context [transcribeLoop _ _ _ _ ?a1 ?w1] =>
          destruct (IH i a1 w1) as (js & T & B & O) end;
          try (cbn [files addLine addTranscription]; first [lia|assumption]).
        exists (i :: js). rewrite T.
        cbn [transcriptions addLine addTranscription map].
        rewrite <- app_assoc. split; [reflexivity|]. split.
        -- constructor; [lia|exact B].
        -- constructor; [exact O|]. eapply Forall_impl; [exact B|]. cbn.
           unfold Nat.le. lia.
Qed.

(** C1, on the run of the scenario: talk.mp3 is split into the chunks 000
    and 001, chunk 000 is transcribed to "Hello world" and the requests for
    chunk 001 are rejected.  Whatever the number of rounds granted, the run
    is still in the loop, asking for chunk 001 again; no transcript is
    written. *)
Theorem rejected_chunk_is_requested_again (rounds : nat) :
  exists w',
    transcribeLargeAudioFile secondFails withSummary rounds "talk.mp3" talkOnly
    = Running w'
    /\ files w' !! "talk_transcript.txt" = None
    /\ transcriptions w'
       = match rounds with
         | 0 => []
         | S rounds' => "out000.mp3" :: repeat "out001.mp3" rounds'
         end.
Proof.
  unfold transcribeLargeAudioFile, bind. rewrite transcribeChunks_loop.
  destruct rounds as [|rounds].
  - eexists. split; [reflexivity|]. split; reflexivity.
  - rewrite (transcribeLoop_resolved _ _ _ _ _ "Hello world");
      [|eexists; reflexivity|reflexivity].
    match goal with |- context [transcribeLoop _ _ _ _ ?a1 ?w1] =>
      destruct (transcribeLoop_stuck secondFails (chunkName 1)
                  (fun n content => ex_intro _ _ eq_refl) rounds 1 a1 w1)
        as (w' & Hrun & F & _ & T & _) end.
    { eexists; reflexivity. }
    rewrite Hrun. exists w'. split; [reflexivity|]. split.
    + rewrite F. reflexivity.
    + rewrite T. reflexivity.
Qed.

(** Had the run reached the transcript, the wrapper would have dropped the
    blank line behind the text. *)
Example wrapper_drops_blank_line :
  splitStringIntoLines ("Hello world" +:+ nl +:+ nl) 80 = Ok "Hello world".
Proof. reflexivity. Qed.

(** C4, on the run of the scenario: the chunks 000 and 001 are there, 002
    is not, and the requests for chunk 000 are rejected.  Whatever the
    number of rounds granted, the scan is still running and has asked for
    chunk 000 only; chunk 001 is never requested. *)
Theorem chunk_behind_rejected_one_never_requested (rounds : nat) :
  exists w',
    transcribeChunks firstFails rounds "talk.mp3" talkOnly = Running w'
    /\ is_Some (files w' !! chunkName 0)
    /\ is_Some (files w' !! chunkName 1)
    /\ files w' !! chunkName 2 = None
    /\ transcriptions w' = repeat (chunkName 0) rounds
    /\ ~ In (chunkName 1) (transcriptions w').
Proof.
  rewrite transcribeChunks_loop.
  destruct (transcribeLoop_stuck firstFails (chunkName 0)
              (fun n content => ex_intro _ _ eq_refl) rounds 0 ""
              (beforeLoop firstFails "talk.mp3" talkOnly))
    as (w' & Hrun & F & _ & T & _).
  { eexists; reflexivity. }
  exists w'. split; [exact Hrun|]. rewrite F, T.
  split; [eexists; reflexivity|]. split; [eexists; reflexivity|].
  split; [reflexivity|]. split; [reflexivity|].
  intros Hin. apply repeat_spec in Hin. discriminate.
Qed.

End FailedRequests.

(** * Witnesses of the aggregator's theorems on concrete runs *)

Section AggregatorRuns.
Import Scenarios.

(** The splitter fails and leaves no chunk: the run ends with the error
    and the directory as it was. *)
Lemma empty_transcription_is_not_saved_witness :
  exists (w1 : World) (fs : gmap string string),
    transcribeChunks noChunks 1 "talk.mp3" talkOnly = Returned "" w1
    /\ transcribeLargeAudioFile noChunks withSummary 1 "talk.mp3" talkOnly
       = Returned tt
           (addLine (LogError "No transcriptions were processed") (setFiles fs w1))
    /\ fs ⊆ (ffmpeg noChunks "talk.mp3" (files talkOnly)).1
    /\ completions w1 = completions talkOnly.
Proof.
  destruct (empty_transcription_is_not_saved noChunks withSummary "talk.mp3" talkOnly)
    as (A & B & _).
  destruct (B eq_refl 0) as [w1 Hscan].
  destruct (A 1 w1 Hscan) as (fs & Hrun & Hsub & Hc).
  exists w1, fs. repeat split; assumption.
Defined.

(** Two chunks, both transcribed, no summary asked for. *)
Lemma no_summary_when_not_requested_witness :
  summarize withoutSummary = false
  /\ let o := transcribeLargeAudioFile bothResolved withoutSummary 3 "talk.mp3" talkOnly in
     completions (world o) = completions talkOnly
     /\ (forall name, name <> transcriptFileName "talk.mp3" ->
           files (world o) !! name = None
           \/ files (world o) !! name
              = (ffmpeg bothResolved "talk.mp3" (files talkOnly)).1 !! name)
     /\ summaryFileName "talk.mp3" <> transcriptFileName "talk.mp3".
Proof.
  split; [reflexivity|].
  apply (no_summary_when_not_requested bothResolved withoutSummary 3 "talk.mp3" talkOnly).
  reflexivity.
Defined.

Example transcript_of_two_chunks :
  exists w',
    transcribeLargeAudioFile bothResolved withoutSummary 3 "talk.mp3" talkOnly
    = Returned tt w'
    /\ files w' !! "talk_transcript.txt" = Some ("Hello world" +:+ nl +:+ "Hello world")
    /\ files w' !! "talk_summary.txt" = None
    /\ files w' !! "out000.mp3" = None /\ files w' !! "out001.mp3" = None
    /\ transcriptions w' = ["out000.mp3"; "out001.mp3"].
Proof. eexists. split; [reflexivity|]. repeat split. Qed.

End AggregatorRuns.

(** * The input router *)

Section Router.

Lemma startsWith_iff (s p : string) :
  startsWith s p = true <-> exists t, s = p +:+ t.
Proof.
  unfold startsWith. revert s; induction p as [|c p IH]; intros s.
  - split; [intros _; now exists s|now destruct s].
  - destruct s as [|d s]; simpl.
    + split; [discriminate|intros [t H]; discriminate].
    + destruct (ascii_dec c d) as [->|Hne].
      * rewrite IH. split; intros [t H]; exists t; [now rewrite H|].
        now injection H.
      * split; [discriminate|]. intros [t H]. injection H as -> _. now destruct Hne.
Qed.

Lemma drop_suffix (n : nat) (s : string) : exists t, s = t +:+ drop n s.
Proof.
  revert s; induction n as [|n IH]; intros s; [now exists ""; destruct s|].
  destruct s as [|c s]; [now exists ""|].
  destruct (IH s) as [t H]. exists (String c t). simpl. now rewrite <- H.
Qed.

Lemma drop_append (t p : string) : drop (String.length t) (t +:+ p) = p.
Proof. induction t as [|c t IH]; simpl; [now destruct p|exact IH]. Qed.

Lemma endsWith_iff (s p : string) :
  endsWith s p = true <-> exists t, s = t +:+ p.
Proof.
  unfold endsWith. rewrite andb_true_iff, Nat.leb_le, String.eqb_eq. split.
  - intros [_ H]. destruct (drop_suffix (String.length s - String.length p) s) as [t E].
    exists t. now rewrite H in E.
  - intros [t ->]. rewrite append_length. split; [lia|].
    rewrite Nat.add_sub. apply drop_append.
Qed.

(** C7: an input that starts with the prefix of the hosting site is handed
    to the downloader, whatever its ending; another input that ends in
    .mp3 is handed to the aggregator; for any other input the error is
    logged, no call is started, and the files and the backends are left
    alone. *)
Theorem route_in_order (fileNameOrUrl : string) (w : World) :
  ((exists t, fileNameOrUrl = "https://www.youtube.com/" +:+ t) ->
   route fileNameOrUrl w
   = Returned (Some (DownloadAudioFromYouTube fileNameOrUrl)) w)
  /\ (~ (exists t, fileNameOrUrl = "https://www.youtube.com/" +:+ t) ->
      (exists t, fileNameOrUrl = t +:+ ".mp3") ->
      route fileNameOrUrl w
      = Returned (Some (TranscribeLargeAudioFile fileNameOrUrl)) w)
  /\ (~ (exists t, fileNameOrUrl = "https://www.youtube.com/" +:+ t) ->
      ~ (exists t, fileNameOrUrl = t +:+ ".mp3") ->
      exists w',
        route fileNameOrUrl w = Returned None w'
        /\ console w'
           = console w
             ++ [LogError "Invalid input. Please provide a YouTube link or an mp3 file."]
        /\ files w' = files w
        /\ transcriptions w' = transcriptions w
        /\ completions w' = completions w).
Proof.
  unfold route.
  pose proof (startsWith_iff fileNameOrUrl "https://www.youtube.com/") as P.
  pose proof (endsWith_iff fileNameOrUrl ".mp3") as Q.
  destruct (startsWith fileNameOrUrl "https://www.youtube.com/").
  - split; [reflexivity|]. split; intros H; destruct H; now apply P.
  - split; [intros H; apply P in H; discriminate|].
    destruct (endsWith fileNameOrUrl ".mp3").
    + split; [reflexivity|]. intros _ H. destruct H. now apply Q.
    + split; [intros _ H; apply Q in H; discriminate|].
      intros _ _. eexists. split; [reflexivity|]. now repeat split.
Qed.

Lemma route_in_order_witness :
  route "https://www.youtube.com/watch?v=talk.mp3" Scenarios.emptyDir
  = Returned (Some (DownloadAudioFromYouTube "https://www.youtube.com/watch?v=talk.mp3"))
      Scenarios.emptyDir
  /\ route "talk.mp3" Scenarios.emptyDir
     = Returned (Some (TranscribeLargeAudioFile "talk.mp3")) Scenarios.emptyDir
  /\ exists w',
      route "notes.pdf" Scenarios.emptyDir = Returned None w'
      /\ console w'
         = [LogError "Invalid input. Please provide a YouTube link or an mp3 file."]
      /\ files w' = ∅ /\ transcriptions w' = [] /\ completions w' = [].
Proof.
  split; [|split].
  - apply (route_in_order "https://www.youtube.com/watch?v=talk.mp3" Scenarios.emptyDir).
    now exists "watch?v=talk.mp3".
  - apply (route_in_order "talk.mp3" Scenarios.emptyDir).
    + intros H. apply startsWith_iff in H. discriminate.
    + now exists "talk".
  - apply (route_in_order "notes.pdf" Scenarios.emptyDir).
    + intros H. apply startsWith_iff in H. discriminate.
    + intros H. apply endsWith_iff in H. discriminate.
Defined.

Example route_examples :
  route "talk.mp3" Scenarios.emptyDir
  = Returned (Some (TranscribeLargeAudioFile "talk.mp3")) Scenarios.emptyDir
  /\ route "notes.pdf" Scenarios.emptyDir
     = Returned None
         (addLine (LogError "Invalid input. Please provide a YouTube link or an mp3 file.")
            Scenarios.emptyDir).
Proof. split; reflexivity. Qed.

End Router.

(** * Directory names for downloads *)

Section DirectoryNames.
Import Download.

Lemma append_associative (a b c : string) :
  (a +:+ b) +:+ c = a +:+ b +:+ c.
Proof. induction a as [|x a IH]; simpl; [reflexivity|now rewrite IH]. Qed.

Lemma removeIllegal_append (a b : string) :
  removeIllegalCharactersForDirName (a +:+ b)
  = removeIllegalCharactersForDirName a +:+ removeIllegalCharactersForDirName b.
Proof.
  induction a as [|c a IH]; simpl; [reflexivity|].
  destruct (isIllegal c); simpl; now rewrite IH.
Qed.

Lemma removeIllegal_get (directoryName : string) :
  forall i c,
    String.get i (removeIllegalCharactersForDirName directoryName) = Some c ->
    isIllegal c = false.
Proof.
  induction directoryName as [|d rest IH]; intros i c; simpl; [discriminate|].
  destruct (isIllegal d) eqn:Hd; [apply IH|].
  destruct i as [|i]; simpl; [intros [= <-]; exact Hd|apply IH].
Qed.

Lemma removeIllegal_clean (directoryName : string) :
  (forall i c, String.get i directoryName = Some c -> isIllegal c = false) ->
  removeIllegalCharactersForDirName directoryName = directoryName.
Proof.
  induction directoryName as [|d rest IH]; intros H; simpl; [reflexivity|].
  rewrite (H 0 d eq_refl). f_equal. apply IH. intros i c. exact (H (S i) c).
Qed.

(** The result holds none of the sixteen characters of the class, and a
    name that holds none of them is returned as it is. *)
Theorem removeIllegal_leaves_no_illegal_character (directoryName : string) :
  (forall i c,
      String.get i (removeIllegalCharactersForDirName directoryName) = Some c ->
      ~ In c illegalCharacters)
  /\ ((forall i c, String.get i directoryName = Some c -> ~ In c illegalCharacters) ->
      removeIllegalCharactersForDirName directoryName = directoryName).
Proof.
  assert (E : forall c, isIllegal c = false <-> ~ In c illegalCharacters).
  { intros c. unfold isIllegal. split.
    - intros H Hin. apply Bool.not_true_iff_false in H. apply H.
      apply existsb_exists. exists c. split; [exact Hin|apply Ascii.eqb_refl].
    - intros H. apply Bool.not_true_iff_false. intros Hex.
      apply existsb_exists in Hex as (x & Hin & Hx).
      apply Ascii.eqb_eq in Hx. now subst x. }
  split.
  - intros i c H. apply E. exact (removeIllegal_get directoryName i c H).
  - intros H. apply removeIllegal_clean. intros i c Hc. apply E. exact (H i c Hc).
Qed.

Lemma removeIllegal_leaves_no_illegal_character_witness :
  removeIllegalCharactersForDirName "Talk 1 (live)" = "Talk 1 (live)".
Proof.
  apply (removeIllegal_leaves_no_illegal_character "Talk 1 (live)").
  intros i c H.
  do 13 (destruct i as [|i];
         [injection H as <-; intros Hin; cbv in Hin;
          repeat (destruct Hin as [Hin|Hin]; [discriminate Hin|]); exact Hin|]).
  discriminate H.
Defined.

(** Cleaning a name twice is cleaning it once; the cleaned name is no
    longer than the name; and cleaning goes through concatenation. *)
Theorem removeIllegal_idempotent (a b : string) :
  removeIllegalCharactersForDirName (removeIllegalCharactersForDirName a)
  = removeIllegalCharactersForDirName a
  /\ String.length (removeIllegalCharactersForDirName a) <= String.length a
  /\ removeIllegalCharactersForDirName (a +:+ b)
     = removeIllegalCharactersForDirName a +:+ removeIllegalCharactersForDirName b.
Proof.
  split; [|split; [|apply removeIllegal_append]].
  - apply removeIllegal_clean. apply removeIllegal_get.
  - induction a as [|c a IH]; simpl; [lia|].
    destruct (isIllegal c); simpl; lia.
Qed.

(** Whatever the title, the file a download is written to is "processed/",
    a directory name and "/audio.mp3", and the directory name holds neither
    a slash nor a backslash.  The name ends in ".mp3" and does not start with
    the prefix of the hosting site, so the tests of the router take it for a
    local file. *)
Theorem outputFileName_has_fixed_depth (videoTitle : string) :
  exists directory,
    outputFileName videoTitle = "processed/" +:+ directory +:+ "/audio.mp3"
    /\ (forall i, String.get i directory <> Some "/"%char
                  /\ String.get i directory <> Some "\"%char)
    /\ endsWith (outputFileName videoTitle) ".mp3" = true
    /\ startsWith (outputFileName videoTitle) "https://www.youtube.com/" = false.
Proof.
  exists (removeIllegalCharactersForDirName videoTitle).
  split; [|split; [|split]].
  - reflexivity.
  - intros i. split; intros H; apply removeIllegal_get in H; discriminate H.
  - apply endsWith_iff.
    exists ("processed/" +:+ removeIllegalCharactersForDirName videoTitle +:+ "/audio").
    unfold outputFileName, outputDirectory.
    rewrite !append_associative. reflexivity.
  - reflexivity.
Qed.

End DirectoryNames.

(** * Names of the transcript and of the summary *)

Section ArtifactNames.

Lemma replace_unfold (s pattern replacement : string) :
  replace s pattern replacement
  = if String.prefix pattern s
    then replacement +:+ drop (String.length pattern) s
    else match s with
         | EmptyString => EmptyString
         | String c s' => String c (replace s' pattern replacement)
         end.
Proof. now destruct s. Qed.

(** [replace] rewrites the first occurrence of the pattern and nothing
    else. *)
Lemma replace_first (a pattern replacement b : string) :
  (forall k, k < String.length a ->
             startsWith (drop k (a +:+ pattern +:+ b)) pattern = false) ->
  replace (a +:+ pattern +:+ b) pattern replacement = a +:+ replacement +:+ b.
Proof.
  induction a as [|c a IH]; intros H.
  - rewrite replace_unfold. simpl.
    assert (P : String.prefix pattern (pattern +:+ b) = true)
      by (apply startsWith_iff; now exists b).
    now rewrite P, drop_append.
  - rewrite replace_unfold.
    pose proof (H 0 ltac:(simpl; lia)) as H0. unfold startsWith in H0.
    simpl in H0 |- *. rewrite H0. f_equal. apply IH.
    intros k Hk. apply (H (S k)). simpl. lia.
Qed.

(** The names of the transcript and of the summary are the input's name
    without its first ".mp3", wherever that is, followed by the suffix. *)
Theorem artifact_names_drop_first_mp3 (a b : string) :
  (forall k, k < String.length a ->
             startsWith (drop k (a +:+ ".mp3" +:+ b)) ".mp3" = false) ->
  transcriptFileName (a +:+ ".mp3" +:+ b) = a +:+ b +:+ "_transcript.txt"
  /\ summaryFileName (a +:+ ".mp3" +:+ b) = a +:+ b +:+ "_summary.txt".
Proof.
  intros H. unfold transcriptFileName, summaryFileName.
  rewrite (replace_first a ".mp3" "" b H). simpl.
  now rewrite !append_associative.
Qed.

Lemma artifact_names_drop_first_mp3_witness :
  transcriptFileName "processed/a.mp3 live/audio.mp3"
  = "processed/a live/audio.mp3_transcript.txt"
  /\ summaryFileName "processed/a.mp3 live/audio.mp3"
     = "processed/a live/audio.mp3_summary.txt".
Proof.
  apply (artifact_names_drop_first_mp3 "processed/a" " live/audio.mp3").
  intros k Hk. do 11 (destruct k as [|k]; [reflexivity|]). simpl in Hk. lia.
Defined.

End ArtifactNames.

(** * More on the line wrapper *)

Section Rewrapping.

Lemma withoutLineTerminators_length (s : string) :
  String.length (withoutLineTerminators s) <= String.length s.
Proof.
  induction s as [|c s IH]; simpl; [lia|].
  destruct (isLineTerminator c); simpl; lia.
Qed.

Lemma withoutLineTerminators_fixed (c : ascii) (s : string) :
  withoutLineTerminators (String c s) = String c s ->
  isLineTerminator c = false /\ withoutLineTerminators s = s.
Proof.
  simpl. destruct (isLineTerminator c).
  - intros E. pose proof (withoutLineTerminators_length s) as L.
    rewrite E in L. simpl in L. lia.
  - intros [= E]. now split.
Qed.

(** A line followed by the end of the string or by a line terminator is
    matched whole. *)
Lemma dotUpTo_line (n : nat) (line rest : string) :
  String.length line <= n ->
  withoutLineTerminators line = line ->
  (rest = "" \/ exists c r, rest = String c r /\ isLineTerminator c = true) ->
  dotUpTo n (line +:+ rest) = (line, rest).
Proof.
  revert n; induction line as [|c line IH]; intros n Hn Hfree Hrest.
  - simpl. destruct n; [now destruct rest|].
    destruct Hrest as [->|(c & r & -> & Hc)]; [reflexivity|]. simpl. now rewrite Hc.
  - destruct n as [|n]; [simpl in Hn; lia|].
    apply withoutLineTerminators_fixed in Hfree as [Hc Hfree].
    simpl. rewrite Hc, IH; [reflexivity|simpl in Hn; lia|assumption|assumption].
Qed.

Lemma matchAllFrom_empty (rounds n : nat) : matchAllFrom rounds n "" = [].
Proof. now destruct rounds. Qed.

(** Matching the joined lines gives the lines back. *)
Lemma matchAllFrom_join (n : nat) (lines : list string) :
  Forall (fun line => 1 <= String.length line <= n
                      /\ withoutLineTerminators line = line) lines ->
  forall rounds,
    String.length (join nl lines) <= rounds ->
    matchAllFrom rounds n (join nl lines) = lines.
Proof.
  induction 1 as [|line lines [Hlen Hfree] Hrest IH]; intros rounds Hr.
  - apply matchAllFrom_empty.
  - destruct line as [|c line]; [simpl in Hlen; lia|].
    destruct lines as [|line2 lines].
    + unfold join in *. simpl in Hr |- *.
      destruct rounds as [|rounds]; [lia|]. cbn [matchAllFrom].
      unfold execDot.
      replace (String c line) with (String c line +:+ "")
        by apply append_empty_r.
      rewrite dotUpTo_line; [|simpl in *; lia|exact Hfree|now left].
      now rewrite matchAllFrom_empty, append_empty_r.
    + unfold join in *.
      change (String.concat nl (String c line :: line2 :: lines))
        with (String c line +:+ String LF (String.concat nl (line2 :: lines))) in *.
      remember (String.concat nl (line2 :: lines)) as rest eqn:Erest.
      rewrite append_length in Hr. cbn [String.length] in Hr, Hlen.
      destruct rounds as [|rounds]; [lia|]. cbn [matchAllFrom].
      change (String c (line +:+ String LF rest))
        with (String c line +:+ String LF rest).
      unfold execDot.
      rewrite dotUpTo_line;
        [|cbn [String.length]; lia|exact Hfree
         |right; eexists _, _; split; reflexivity].
      f_equal.
      destruct rounds as [|rounds]; [lia|]. cbn [matchAllFrom].
      assert (X : execDot n (String LF rest) = None).
      { unfold execDot. destruct n; reflexivity. }
      rewrite X. apply IH. lia.
Qed.

(** Wrapping is idempotent: the wrapper's output, wrapped again at the same
    width, is returned as it is.  The output holds the same code units,
    other than line terminators, as the input, in the same order. *)
Theorem wrapping_twice_is_wrapping_once (T out : string) (W : nat) :
  splitStringIntoLines T W = Ok out ->
  splitStringIntoLines out W = Ok out
  /\ withoutLineTerminators out = withoutLineTerminators T.
Proof.
  unfold splitStringIntoLines. destruct W as [|W]; [discriminate|].
  destruct (matchDot (S W) T) as [lines|] eqn:Hm; [|discriminate].
  intros [= <-]. unfold matchDot in Hm.
  pose proof (matchAllFrom_concat (S W) (String.length T) T
                ltac:(lia) (le_n _)) as C.
  pose proof (matchAllFrom_lines (S W) (String.length T) T) as L.
  destruct (matchAllFrom (String.length T) (S W) T) as [|m ms] eqn:E;
    [discriminate|]. injection Hm as <-.
  assert (WF : Forall (fun line => 1 <= String.length line <= S W
                                  /\ withoutLineTerminators line = line) (m :: ms)).
  { apply Forall_forall. intros line Hin. apply L. now apply list_elem_of_In. }
  split.
  - unfold matchDot.
    rewrite (matchAllFrom_join (S W) (m :: ms) WF _ (le_n _)). reflexivity.
  - rewrite <- C. clear -WF. induction WF as [|line lines [_ Hfree] _ IH].
    + reflexivity.
    + rewrite concat_empty_cons. destruct lines as [|line2 lines].
      * simpl. now rewrite append_empty_r.
      * unfold join in *.
        change (String.concat nl (line :: line2 :: lines))
          with (line +:+ String LF (String.concat nl (line2 :: lines))).
        remember (String.concat nl (line2 :: lines)) as rest eqn:Erest.
        rewrite withoutLineTerminators_append, Hfree.
        change (withoutLineTerminators (String LF rest))
          with (withoutLineTerminators rest).
        now rewrite IH.
Qed.

Lemma wrapping_twice_is_wrapping_once_witness :
  splitStringIntoLines ("abc" +:+ nl +:+ "def" +:+ nl +:+ "g") 3
  = Ok ("abc" +:+ nl +:+ "def" +:+ nl +:+ "g")
  /\ withoutLineTerminators ("abc" +:+ nl +:+ "def" +:+ nl +:+ "g")
     = withoutLineTerminators "abcdefg".
Proof.
  apply (wrapping_twice_is_wrapping_once "abcdefg" _ 3). reflexivity.
Defined.

End Rewrapping.

(** * More on cleanup *)

Section CleanupAgain.

Lemma append_suffix_inj (a b c d : string) :
  String.length c = String.length d -> a +:+ c = b +:+ d -> c = d.
Proof.
  intros L E.
  assert (La : String.length a = String.length b).
  { apply (f_equal String.length) in E. rewrite !append_length in E. lia. }
  clear L. revert b E La; induction a as [|x a IH]; intros [|y b] E La;
    try discriminate La; [exact E|].
  simpl in E, La. injection E as _ E. apply (IH b); [exact E|lia].
Qed.

Lemma chunkName_endsWith_mp3 (i : nat) : endsWith (chunkName i) ".mp3" = true.
Proof.
  apply endsWith_iff. exists ("out" +:+ padStart (ofNat i) 3 "0").
  unfold chunkName. now rewrite append_associative.
Qed.

Lemma artifact_not_mp3 (base : string) :
  endsWith (base +:+ "_transcript.txt") ".mp3" = false
  /\ endsWith (base +:+ "_summary.txt") ".mp3" = false.
Proof.
  split.
  - destruct (endsWith (base +:+ "_transcript.txt") ".mp3") eqn:E; [|reflexivity].
    apply endsWith_iff in E as [t E].
    change (base +:+ "_transcript.txt") with (base +:+ "_transcript" +:+ ".txt") in E.
    rewrite <- append_associative in E.
    apply append_suffix_inj in E; [discriminate E|reflexivity].
  - destruct (endsWith (base +:+ "_summary.txt") ".mp3") eqn:E; [|reflexivity].
    apply endsWith_iff in E as [t E].
    change (base +:+ "_summary.txt") with (base +:+ "_summary" +:+ ".txt") in E.
    rewrite <- append_associative in E.
    apply append_suffix_inj in E; [discriminate E|reflexivity].
Qed.

(** Cleanup keeps every file whose name does not end in ".mp3"; the
    transcript and the summary of any input are among them. *)
Theorem cleanup_keeps_artifacts (w : World) :
  exists fs : gmap string string,
    cleanupAudioChunks w = Returned tt (setFiles fs w)
    /\ (forall name, endsWith name ".mp3" = false -> fs !! name = files w !! name)
    /\ (forall audioFileName,
          fs !! transcriptFileName audioFileName
          = files w !! transcriptFileName audioFileName
          /\ fs !! summaryFileName audioFileName
             = files w !! summaryFileName audioFileName).
Proof.
  destruct (cleanupLoop_ends (size (files w)) 0 w (le_n _))
    as (k & fs & Hrun & _ & _ & _ & _ & Hframe).
  exists fs. split; [exact Hrun|].
  assert (K : forall name, endsWith name ".mp3" = false -> fs !! name = files w !! name).
  { intros name Hname. apply Hframe. intros j _ ->.
    rewrite chunkName_endsWith_mp3 in Hname. discriminate. }
  split; [exact K|]. intros audioFileName.
  destruct (artifact_not_mp3 (replace audioFileName ".mp3" "")) as [T S].
  split; apply K; assumption.
Qed.

(** Cleanup run a second time changes nothing. *)
Theorem cleanup_twice_is_cleanup_once (w : World) :
  bind cleanupAudioChunks (fun _ => cleanupAudioChunks) w = cleanupAudioChunks w.
Proof.
  destruct (cleanupLoop_ends (size (files w)) 0 w (le_n _))
    as (k & fs & Hrun & _ & _ & Hnone & Hgone & Hframe).
  assert (H0 : fs !! chunkName 0 = None).
  { destruct k as [|k]; [|apply Hgone; lia].
    rewrite Hframe; [exact Hnone|]. intros j Hj. lia. }
  change (cleanupAudioChunks w = Returned tt (setFiles fs w)) in Hrun.
  rewrite (bind_returned _ _ _ _ _ Hrun), Hrun.
  unfold cleanupAudioChunks. cbn [cleanupLoop]. unfold bind, existsSync, ret.
  cbn [files setFiles]. now rewrite H0.
Qed.

End CleanupAgain.

(** * More on the scan *)

Section ScanAgain.
Variable backends : Backends.

(** What the loop returns extends the text it started with, and it is that
    very text only when the file it started with is missing. *)
Lemma transcribeLoop_grows (rounds : nat) :
  forall (i : nat) (fileName agg agg' : string) (w w' : World),
    transcribeLoop backends rounds i fileName agg w = Returned agg' w' ->
    String.length agg <= String.length agg'
    /\ (String.length agg' = String.length agg -> files w !! fileName = None).
Proof.
  induction rounds as [|rounds IH]; intros i fileName agg agg' w w' Hrun;
    [discriminate Hrun|].
  destruct (files w !! fileName) as [content|] eqn:Hl.
  - destruct (createTranscription backends (List.length (transcriptions w))
                fileName (files w !! fileName)) as [text|message] eqn:Hr.
    + rewrite (transcribeLoop_resolved _ _ _ _ _ text) in Hrun;
        [|rewrite Hl; eauto|exact Hr].
      apply IH in Hrun as [L _]. rewrite !append_length in L.
      cbn [String.length nl] in L. split; [lia|]. intros E. unfold nl in L.
      cbn [String.length] in L. lia.
    + rewrite (transcribeLoop_rejected _ _ _ _ _ message) in Hrun;
        [|rewrite Hl; eauto|exact Hr].
      apply IH in Hrun as [L E]. cbn [files addLine addTranscription] in E.
      split; [exact L|]. intros H. apply E in H. congruence.
  - rewrite transcribeLoop_missing in Hrun by exact Hl.
    injection Hrun as <- <-. split; [lia|reflexivity].
Qed.

(** The scan ends with the empty text only when the splitter left no chunk
    000: a failed transcription never leads to the empty text. *)
Theorem scan_ends_empty_only_without_chunks
    (rounds : nat) (audioFileName : string) (w w1 : World) :
  transcribeChunks backends rounds audioFileName w = Returned "" w1 ->
  (ffmpeg backends audioFileName (files w)).1 !! chunkName 0 = None.
Proof.
  rewrite transcribeChunks_loop. intros Hrun.
  apply transcribeLoop_grows in Hrun as [_ E].
  destruct (beforeLoop_frame backends audioFileName w) as (F & _).
  rewrite <- F. now apply E.
Qed.

(** A chunk whose request is rejected [k] times and resolved then is
    requested [k + 1] times; its text is appended once and the loop goes on
    with the next chunk. *)
Theorem rejected_request_is_repeated_until_resolved (k : nat) :
  forall (rounds i : nat) (fileName agg text : string) (w : World),
    is_Some (files w !! fileName) ->
    (forall j, j < k -> exists message,
        createTranscription backends (List.length (transcriptions w) + j) fileName
          (files w !! fileName) = Rejected message) ->
    createTranscription backends (List.length (transcriptions w) + k) fileName
      (files w !! fileName) = Resolved text ->
    exists w',
      transcribeLoop backends (k + S rounds) i fileName agg w
      = transcribeLoop backends rounds (S i) (chunkName (S i))
          (agg +:+ text +:+ nl +:+ nl) w'
      /\ files w' = files w
      /\ completions w' = completions w
      /\ transcriptions w' = transcriptions w ++ repeat fileName (S k).
Proof.
  induction k as [|k IH]; intros rounds i fileName agg text w Hex Hrej Hres.
  - rewrite Nat.add_0_r in Hres. cbn [Nat.add].
    rewrite (transcribeLoop_resolved _ _ _ _ _ text) by assumption.
    eexists. split; [reflexivity|]. now repeat split.
  - destruct (Hrej 0 ltac:(lia)) as [message Hm]. rewrite Nat.add_0_r in Hm.
    cbn [Nat.add]. rewrite (transcribeLoop_rejected _ _ _ _ _ message) by assumption.
    match goal with |- context [transcribeLoop _ (k + S rounds) _ _ _ ?w1] =>
      destruct (IH rounds i fileName agg text w1) as (w' & Hrun & F & C & T) end.
    + exact Hex.
    + intros j Hj. cbn [files transcriptions addLine addTranscription].
      rewrite length_app. cbn [List.length].
      replace (List.length (transcriptions w) + 1 + j)
        with (List.length (transcriptions w) + S j) by lia.
      apply Hrej. lia.
    + cbn [files transcriptions addLine addTranscription].
      rewrite length_app. cbn [List.length].
      replace (List.length (transcriptions w) + 1 + k)
        with (List.length (transcriptions w) + S k) by lia.
      exact Hres.
    + exists w'. split; [exact Hrun|].
      cbn [files completions transcriptions addLine addTranscription] in F, C, T.
      split; [exact F|]. split; [exact C|].
      rewrite T, <- app_assoc. reflexivity.
Qed.

End ScanAgain.

Lemma rejected_request_is_repeated_until_resolved_witness :
  exists w',
    transcribeLoop MoreScenarios.flaky (2 + 2) 0 (chunkName 0) ""
      (beforeLoop MoreScenarios.flaky "talk.mp3" Scenarios.talkOnly)
    = transcribeLoop MoreScenarios.flaky 1 1 (chunkName 1)
        ("" +:+ "Hello world" +:+ nl +:+ nl) w'
    /\ files w' = files (beforeLoop MoreScenarios.flaky "talk.mp3" Scenarios.talkOnly)
    /\ completions w' = []
    /\ transcriptions w' = [] ++ repeat (chunkName 0) 3.
Proof.
  apply (rejected_request_is_repeated_until_resolved MoreScenarios.flaky 2 1 0
           (chunkName 0) "" "Hello world"
           (beforeLoop MoreScenarios.flaky "talk.mp3" Scenarios.talkOnly)).
  - eexists. reflexivity.
  - intros j Hj. destruct j as [|[|j]]; [eexists; reflexivity..|lia].
  - reflexivity.
Defined.

Lemma scan_ends_empty_only_without_chunks_witness :
  (ffmpeg Scenarios.noChunks "talk.mp3" (files Scenarios.talkOnly)).1 !! chunkName 0
  = None.
Proof.
  apply (scan_ends_empty_only_without_chunks Scenarios.noChunks 1 "talk.mp3"
           Scenarios.talkOnly
           (beforeLoop Scenarios.noChunks "talk.mp3" Scenarios.talkOnly)).
  reflexivity.
Defined.

(** * The text the scan builds *)

Section Aggregation.
Variable backends : Backends.
Variable textOf : string -> string.

(** When the backend resolves every request, with [textOf name] for the file
    [name], the scan over the chunks i..i+N-1 returns the text it started
    with followed by the texts of the chunks in the order of their indices,
    each with a blank line behind it; every chunk is requested once, and the
    files are as before. *)
Theorem scan_concatenates_in_index_order (N : nat) :
  (forall n name content,
      createTranscription backends n name content = Resolved (textOf name)) ->
  forall (i : nat) (agg : string) (w : World),
    (forall j, i <= j < i + N -> is_Some (files w !! chunkName j)) ->
    files w !! chunkName (i + N) = None ->
    exists w',
      transcribeLoop backends (S N) i (chunkName i) agg w
      = Returned
          (agg +:+ String.concat ""
             (map (fun j => textOf (chunkName j) +:+ nl +:+ nl) (seq i N)))
          w'
      /\ transcriptions w' = transcriptions w ++ map chunkName (seq i N)
      /\ files w' = files w.
Proof.
  intros Hres. induction N as [|N IH]; intros i agg w Hsome Hnone.
  - rewrite Nat.add_0_r in Hnone. rewrite transcribeLoop_missing by exact Hnone.
    exists w. cbn [seq map String.concat]. rewrite append_empty_r, app_nil_r.
    now repeat split.
  - rewrite (transcribeLoop_resolved _ _ _ _ _ (textOf (chunkName i)));
      [|apply Hsome; lia|apply Hres].
    match goal with |- context [transcribeLoop _ _ _ _ ?a1 ?w1] =>
      destruct (IH (S i) a1 w1) as (w' & Hrun & T & F) end.
    + intros j Hj. cbn [files addLine addTranscription]. apply Hsome. lia.
    + cbn [files addLine addTranscription].
      now replace (S i + N) with (i + S N) by lia.
    + exists w'. rewrite Hrun.
      cbn [files transcriptions addLine addTranscription] in T, F.
      split; [|split; [|exact F]].
      * f_equal. cbn [seq map]. rewrite concat_empty_cons.
        now rewrite !append_associative.
      * rewrite T. cbn [seq map]. now rewrite <- app_assoc.
Qed.

End Aggregation.

Lemma scan_concatenates_in_index_order_witness :
  exists w',
    transcribeLoop Scenarios.bothResolved 3 0 (chunkName 0) ""
      (beforeLoop Scenarios.bothResolved "talk.mp3" Scenarios.talkOnly)
    = Returned
        ("" +:+ String.concat ""
           (map (fun j => "Hello world" +:+ nl +:+ nl) (seq 0 2)))
        w'
    /\ transcriptions w'
       = transcriptions (beforeLoop Scenarios.bothResolved "talk.mp3" Scenarios.talkOnly)
         ++ map chunkName (seq 0 2)
    /\ files w' = files (beforeLoop Scenarios.bothResolved "talk.mp3" Scenarios.talkOnly).
Proof.
  apply (scan_concatenates_in_index_order Scenarios.bothResolved
           (fun _ => "Hello world") 2 (fun _ _ _ => eq_refl) 0 ""
           (beforeLoop Scenarios.bothResolved "talk.mp3" Scenarios.talkOnly)).
  - intros j Hj. destruct j as [|[|j]]; [eexists; reflexivity..|lia].
  - reflexivity.
Defined.

(** * Runs that reach the transcript *)

Section Saving.
Variable backends : Backends.
Variable args : Args.

Lemma wrapped_text_not_empty (agg wrapped : string) :
  splitStringIntoLines agg 80 = Ok wrapped -> String.eqb agg "" = false.
Proof.
  intros H. destruct (String.eqb_spec agg "") as [->|]; [discriminate H|reflexivity].
Qed.


Ltac after_scan Hscan fs Hclean Hsub Hc :=
  match type of Hscan with
  | transcribeChunks _ ?rounds ?name ?w = Returned _ ?w1 =>
      destruct (cleanup_only_deletes w1) as (fs & Hclean & Hsub);
      pose proof (transcribeChunks_frame backends rounds name w) as Hc;
      cbv zeta in Hc; rewrite Hscan in Hc; cbn [world] in Hc;
      destruct Hc as (_ & Hc & _);
      unfold transcribeLargeAudioFile;
      rewrite (bind_returned _ _ _ _ _ Hscan);
      unfold saveTranscription;
      rewrite (bind_returned _ _ _ _ _ Hclean)
  end.




(** With the transcript write accepted by the file system: when the chat
    backend rejects the request, or answers with a text the wrapper throws
    on, the run throws after the request: the transcript stays written and no
    summary file is. *)
Theorem failed_summary_keeps_the_transcript
    (rounds : nat) (audioFileName agg wrapped : string)
    (model : ChatModel) (w w1 : World) :
  transcribeChunks backends rounds audioFileName w = Returned agg w1 ->
  splitStringIntoLines agg 80 = Ok wrapped ->
  writeError w1 (transcriptFileName audioFileName) = None ->
  summarize args = true ->
  getChatModelFromString (gpt_model args) = Ok model ->
  ((exists message,
      createChatCompletion backends (value model) (prompt agg) = Rejected message)
   \/ (exists response e,
         createChatCompletion backends (value model) (prompt agg) = Resolved response
         /\ splitStringIntoLines response 80 = Throw e)) ->
  exists (fs : gmap string string) (e : Exn) (w' : World),
    transcribeLargeAudioFile backends args rounds audioFileName w = Threw e w'
    /\ fs ⊆ files w1
    /\ files w' = <[transcriptFileName audioFileName := wrapped]> fs
    /\ completions w' = completions w ++ [(value model, prompt agg)].
Proof.
  intros Hscan Hwrap Hwrite Hs Hmodel Hchat. after_scan Hscan fs Hclean Hsub Hc.
  rewrite (wrapped_text_not_empty _ _ Hwrap).
  unfold bind, lift, writeFileSync, log, chatCompletion.
  rewrite Hwrap. cbn [writeError setFiles]. rewrite Hwrite.
  rewrite Hs, Hmodel.
  destruct Hchat as [[message Hchat]|(response & e & Hchat & Hwrap')].
  - rewrite Hchat. exists fs. eexists _, _. split; [reflexivity|].
    cbn [files completions setFiles addLine addCompletion].
    split; [exact Hsub|]. split; [reflexivity|now rewrite Hc].
  - rewrite Hchat, Hwrap'. exists fs. eexists _, _. split; [reflexivity|].
    cbn [files completions setFiles addLine addCompletion].
    split; [exact Hsub|]. split; [reflexivity|now rewrite Hc].
Qed.

End Saving.

Section SavingRuns.
Import Scenarios MoreScenarios.




Lemma failed_summary_keeps_the_transcript_witness :
  exists (fs : gmap string string) (e : Exn) (w' : World),
    transcribeLargeAudioFile chatDown withSummary 2 "talk.mp3" talkOnly
    = Threw e w'
    /\ fs ⊆ files (world (transcribeChunks chatDown 2 "talk.mp3" talkOnly))
    /\ files w' = <[transcriptFileName "talk.mp3" := "Hello world"]> fs
    /\ completions w'
       = completions talkOnly
         ++ [(value GPT3_5, prompt ("Hello world" +:+ nl +:+ nl))].
Proof.
  apply (failed_summary_keeps_the_transcript chatDown withSummary 2
           "talk.mp3" ("Hello world" +:+ nl +:+ nl) "Hello world"
           GPT3_5 talkOnly
           (world (transcribeChunks chatDown 2 "talk.mp3" talkOnly)));
    try reflexivity.
  left. eexists. reflexivity.
Defined.

End SavingRuns.

(** * The loop of the first variant *)

Section FirstVariant.
Variable backends : Backends.

(** One round on a chunk that is there: whatever the backend answers, the
    index advances; the text appended is the transcription, or "null" when
    the request was rejected. *)
Lemma variant1_round (rounds i : nat) (fileName agg : string) (w : World) :
  is_Some (files w !! fileName) ->
  exists w1,
    Variant1.transcribeLoop backends (S rounds) i fileName agg w
    = Variant1.transcribeLoop backends rounds (S i) (chunkName (S i))
        (agg +:+ match createTranscription backends (List.length (transcriptions w))
                         fileName (files w !! fileName) with
                 | Resolved text => text
                 | Rejected _ => "null"
                 end +:+ nl +:+ nl) w1
    /\ files w1 = files w
    /\ completions w1 = completions w
    /\ transcriptions w1 = transcriptions w ++ [fileName].
Proof.
  intros [content Hl]. cbn [Variant1.transcribeLoop].
  unfold bind at 1, existsSync. rewrite Hl.
  unfold bind at 1, log. unfold bind at 1, Variant1.transcribeSmallAudioFile.
  cbn [files transcriptions addLine]. rewrite Hl.
  destruct (createTranscription backends (List.length (transcriptions w))
              fileName (Some content)) as [text|message];
    eexists; (split; [reflexivity|]); now repeat split.
Qed.

(** The loop of the first variant ends on every backend: with the chunks
    i..i+N-1 there and none at i+N it returns after N rounds and one test,
    having requested each chunk once, in the order of the indices.  When
    every request is rejected, the text it returns holds "null" and a blank
    line for each chunk. *)
Theorem variant1_scan_ends_whatever_the_backend (N : nat) :
  forall (i : nat) (agg : string) (w : World),
    (forall j, i <= j < i + N -> is_Some (files w !! chunkName j)) ->
    files w !! chunkName (i + N) = None ->
    exists agg' w',
      Variant1.transcribeLoop backends (S N) i (chunkName i) agg w = Returned agg' w'
      /\ transcriptions w' = transcriptions w ++ map chunkName (seq i N)
      /\ files w' = files w
      /\ completions w' = completions w
      /\ ((forall n name content, exists message,
              createTranscription backends n name content = Rejected message) ->
          agg' = agg +:+ String.concat "" (repeat ("null" +:+ nl +:+ nl) N)).
Proof.
  induction N as [|N IH]; intros i agg w Hsome Hnone.
  - rewrite Nat.add_0_r in Hnone. exists agg, w.
    cbn [Variant1.transcribeLoop]. unfold bind, existsSync, ret. rewrite Hnone.
    cbn [seq map repeat String.concat]. rewrite app_nil_r, append_empty_r.
    now repeat split.
  - destruct (variant1_round (S N) i (chunkName i) agg w) as (w1 & Hstep & F1 & C1 & T1);
      [apply Hsome; lia|].
    rewrite Hstep.
    match goal with |- context [Variant1.transcribeLoop _ _ _ _ ?a1 w1] =>
      destruct (IH (S i) a1 w1) as (agg' & w' & Hrun & T & F & C & A) end.
    + intros j Hj. rewrite F1. apply Hsome. lia.
    + rewrite F1. now replace (S i + N) with (i + S N) by lia.
    + exists agg', w'. split; [exact Hrun|].
      split; [rewrite T, T1, <- app_assoc; reflexivity|].
      split; [congruence|]. split; [congruence|].
      intros Hrej. rewrite (A Hrej).
      destruct (Hrej (List.length (transcriptions w)) (chunkName i)
                  (files w !! chunkName i)) as [message ->].
      cbn [repeat]. rewrite concat_empty_cons. now rewrite !append_associative.
Qed.

End FirstVariant.

Lemma variant1_scan_ends_whatever_the_backend_witness :
  exists agg' w',
    Variant1.transcribeLoop Scenarios.firstFails 3 0 (chunkName 0) ""
      (beforeLoop Scenarios.firstFails "talk.mp3" Scenarios.talkOnly)
    = Returned agg' w'
    /\ transcriptions w'
       = transcriptions (beforeLoop Scenarios.firstFails "talk.mp3" Scenarios.talkOnly)
         ++ map chunkName (seq 0 2)
    /\ files w' = files (beforeLoop Scenarios.firstFails "talk.mp3" Scenarios.talkOnly)
    /\ completions w'
       = completions (beforeLoop Scenarios.firstFails "talk.mp3" Scenarios.talkOnly)
    /\ ((forall n name content, exists message,
            createTranscription Scenarios.firstFails n name content = Rejected message) ->
        agg' = "" +:+ String.concat "" (repeat ("null" +:+ nl +:+ nl) 2)).
Proof.
  apply (variant1_scan_ends_whatever_the_backend Scenarios.firstFails 2 0 ""
           (beforeLoop Scenarios.firstFails "talk.mp3" Scenarios.talkOnly)).
  - intros j Hj. destruct j as [|[|j]]; [eexists; reflexivity..|lia].
  - reflexivity.
Defined.

Example variant1_appends_null :
  match Variant1.transcribeLoop Scenarios.firstFails 3 0 (chunkName 0) ""
          (beforeLoop Scenarios.firstFails "talk.mp3" Scenarios.talkOnly) with
  | Returned agg' _ => Some agg'
  | _ => None
  end
  = Some ("null" +:+ nl +:+ nl +:+ "Hello world" +:+ nl +:+ nl).
Proof. vm_compute. reflexivity. Qed.

Lemma transcribeLoop_below_gap_witness :
  exists js,
    transcriptions
      (world (transcribeLoop Scenarios.secondFails 5 0 (chunkName 0) ""
                (beforeLoop Scenarios.secondFails "talk.mp3" Scenarios.talkOnly)))
    = transcriptions (beforeLoop Scenarios.secondFails "talk.mp3" Scenarios.talkOnly)
      ++ map chunkName js
    /\ Forall (fun j => 0 <= j < 2) js
    /\ StronglySorted Nat.le js.
Proof.
  apply (transcribeLoop_below_gap Scenarios.secondFails 2 5 0 ""
           (beforeLoop Scenarios.secondFails "talk.mp3" Scenarios.talkOnly)).
  - lia.
  - intros j Hj. destruct j as [|[|j]]; [eexists; reflexivity..|lia].
  - reflexivity.
Defined.

(** * A run in which every transcription fails *)

Section EveryRequestRejected.
Import Scenarios MoreScenarios.

(** While the requests for the chunk at hand are rejected, the loop writes
    three kinds of lines to the console and no other. *)
Lemma transcribeLoop_stuck_console (backends : Backends) (fileName : string) :
  (forall n content, exists message,
      createTranscription backends n fileName content = Rejected message) ->
  forall (rounds i : nat) (agg : string) (w : World),
    is_Some (files w !! fileName) ->
    forall line,
      In line (console (world (transcribeLoop backends rounds i fileName agg w))) ->
      In line (console w)
      \/ (exists text, line = Log text)
      \/ (exists message, line = LogError ("Error transcribing: " +:+ message))
      \/ line = LogError ("Failed to transcribe " +:+ dq +:+ fileName +:+ dq).
Proof.
  intros Hrej. induction rounds as [|rounds IH]; intros i agg w Hex line Hin.
  - now left.
  - destruct (Hrej (List.length (transcriptions w)) (files w !! fileName))
      as [message Hr].
    rewrite (transcribeLoop_rejected _ _ _ _ _ message) in Hin by assumption.
    apply IH in Hin; [|exact Hex].
    destruct Hin as [Hin|Hin]; [|now right].
    cbn [console addLine addTranscription] in Hin.
    apply in_app_or in Hin as [Hin|[<-|[]]]; [|now right; right; right].
    apply in_app_or in Hin as [Hin|[<-|[]]]; [|right; right; left; now exists message].
    apply in_app_or in Hin as [Hin|[<-|[]]]; [now left|right; left; eauto].
Qed.

(** C6, on the run in which the splitter leaves the chunks 000 and 001 and
    every transcription request is rejected: whatever the number of rounds
    granted, the run is still in the loop asking for chunk 000, and the error
    of the empty transcript is not on the console. *)
Theorem rejected_run_never_reports_empty_transcript (rounds : nat) :
  exists w',
    transcribeLargeAudioFile allRejected withSummary rounds "talk.mp3" talkOnly
    = Running w'
    /\ ~ In (LogError "No transcriptions were processed") (console w')
    /\ transcriptions w' = repeat "out000.mp3" rounds
    /\ files w' !! "talk_transcript.txt" = None.
Proof.
  assert (Hrej : forall n content, exists message,
             createTranscription allRejected n (chunkName 0) content = Rejected message)
    by (intros; eexists; reflexivity).
  assert (Hex : is_Some (files (beforeLoop allRejected "talk.mp3" talkOnly)
                           !! chunkName 0))
    by (eexists; reflexivity).
  destruct (transcribeLoop_stuck allRejected (chunkName 0) Hrej rounds 0 ""
              (beforeLoop allRejected "talk.mp3" talkOnly) Hex)
    as (w' & Hrun & F & _ & T & _).
  pose proof (transcribeLoop_stuck_console allRejected (chunkName 0) Hrej rounds 0 ""
                (beforeLoop allRejected "talk.mp3" talkOnly) Hex) as L.
  rewrite Hrun in L. cbn [world] in L.
  exists w'. unfold transcribeLargeAudioFile, bind.
  rewrite transcribeChunks_loop, Hrun. split; [reflexivity|].
  split; [|split; [rewrite T; reflexivity|rewrite F; reflexivity]].
  intros Hin. apply L in Hin as [Hin|[[text Hin]|[[message Hin]|Hin]]].
  - cbn in Hin. destruct Hin as [Hin|[]]. discriminate Hin.
  - discriminate Hin.
  - discriminate Hin.
  - discriminate Hin.
Qed.

End EveryRequestRejected.
